(** * node-ldapauth: a shallow embedding of lib/ldapauth.js

    The service is a single-threaded, callback-driven program.  It is
    embedded as an event-handler machine: every handler of the source
    (a method called by the application, or a callback run by ldapjs,
    backoff, bcrypt or the event loop) is a function from the state of
    the service to a new state and the list of effects the handler
    performs, in program order.

    Libraries the source calls are modelled at their interface:
    - JavaScript itself: truthiness, [String.prototype.replace] with a
      string pattern, [util.format] with [%s];
    - assert-plus: [assert.string], [assert.ok];
    - once: a wrapped callback runs at most once;
    - backoff (2.x, [backoff.call]): the [FunctionCall] state machine,
      whose [abort] stops the call silently;
    - ldapjs: a client delivers one connection outcome per client, one
      reply per bind, search or unbind request.
    Logging and back-off delays are not modelled: timers are fired by the
    environment. *)

From Stdlib Require Import Bool Arith ZArith List String Ascii Lia.
From Stdlib Require Import DecimalString.
Import ListNotations.
Local Open Scope string_scope.
Local Open Scope list_scope.

(* ------------------------------------------------------------------ *)
(** ** JavaScript values and strings *)

Module JS.

(** The values a configuration key or a credential can hold. *)
Inductive value : Type :=
| Undefined
| Null
| Bool (b : bool)
| Num (z : Z)
| Str (s : string)
| Obj.

(** [ToBoolean]. *)
Definition truthy (v : value) : bool :=
  match v with
  | Undefined | Null => false
  | Bool b => b
  | Num z => negb (z =? 0)%Z
  | Str s => negb (s =? EmptyString)
  | Obj => true
  end.

(** What a callback receives as [err]: an [Error] object with its
    [name] and [message], or a plain string. *)
Inductive error : Type :=
| ErrObj (name message : string)
| ErrStr (s : string).

Definition err_name (e : error) : option string :=
  match e with
  | ErrObj n _ => Some n
  | ErrStr _ => None
  end.

Definition err_truthy (e : error) : bool :=
  match e with
  | ErrObj _ _ => true
  | ErrStr s => negb (s =? EmptyString)
  end.

(** [if (err)] on an optional error argument. *)
Definition is_err (e : option error) : bool :=
  match e with
  | Some e => err_truthy e
  | None => false
  end.

(** [new Error(message)]. *)
Definition Error (message : string) : error := ErrObj "Error" message.

(** Decimal rendering of integers, as [String(n)] and [%s] do. *)
Definition string_of_Z (z : Z) : string := NilZero.string_of_int (Z.to_int z).
Definition string_of_nat (n : nat) : string := string_of_Z (Z.of_nat n).

Definition dquote : string := String (ascii_of_nat 34) EmptyString.

(** [strip_prefix p s] is the rest of [s] after [p] when [s] starts
    with [p]. *)
Fixpoint strip_prefix (p s : string) : option string :=
  match p with
  | EmptyString => Some s
  | String a p' =>
      match s with
      | EmptyString => None
      | String b s' => if (a =? b)%char then strip_prefix p' s' else None
      end
  end.

(** The first occurrence of [p] in [s]: the text before it and the
    text after it. *)
Fixpoint split_first (p s : string) : option (string * string) :=
  match strip_prefix p s with
  | Some rest => Some (EmptyString, rest)
  | None =>
      match s with
      | EmptyString => None
      | String c s' =>
          match split_first p s' with
          | Some (before, rest) => Some (String c before, rest)
          | None => None
          end
      end
  end.

(** [GetSubstitution] for a pattern without capture groups: the
    replacement text is scanned for [$$], [$&], [$`] and [$'];
    every other character, and a [$] followed by anything else,
    stands for itself. *)
Fixpoint GetSubstitution (matched before rest repl : string) : string :=
  match repl with
  | EmptyString => EmptyString
  | String c r =>
      if (c =? "$")%char then
        match r with
        | EmptyString => String c EmptyString
        | String d r' =>
            if (d =? "$")%char then
              String "$" (GetSubstitution matched before rest r')
            else if (d =? "&")%char then
              (matched ++ GetSubstitution matched before rest r')%string
            else if (d =? "`")%char then
              (before ++ GetSubstitution matched before rest r')%string
            else if (d =? "'")%char then
              (rest ++ GetSubstitution matched before rest r')%string
            else String c (GetSubstitution matched before rest r)
        end
      else String c (GetSubstitution matched before rest r)
  end.

(** [s.replace(p, repl)] with a string pattern [p]: only the first
    occurrence is replaced. *)
Definition replace (s p repl : string) : string :=
  match split_first p s with
  | None => s
  | Some (before, rest) =>
      (before ++ GetSubstitution p before rest repl ++ rest)%string
  end.

(** The text a verbatim insertion at the first occurrence gives. *)
Definition insert_at_first (s p text : string) : string :=
  match split_first p s with
  | None => s
  | Some (before, rest) => (before ++ text ++ rest)%string
  end.

Fixpoint contains_char (c : ascii) (s : string) : bool :=
  match s with
  | EmptyString => false
  | String d s' => (c =? d)%char || contains_char c s'
  end.

End JS.

(* ------------------------------------------------------------------ *)
(** ** Configuration, clients, effects *)

(** [opts.retry]: only [retries] decides how many attempts are made. *)
Record RetryOpts : Type := { retries : option Z }.

(** The [opts] object given to [new LdapAuth(opts)]. *)
Record Opts : Type := {
  url : JS.value;
  adminDn : JS.value;
  adminPassword : JS.value;
  searchBase : JS.value;
  searchFilter : JS.value;
  cache : JS.value;
  retry : option RetryOpts
}.

(** [entry.object] of a search entry: the DN and the attributes. *)
Record UserRecord : Type := {
  dn : string;
  attributes : list (string * string)
}.

(** A connector is owned by the admin session (one per call of
    [adminConnect]) or by one password check of [authenticate]. *)
Inductive owner : Type :=
| Admin (generation : nat)
| User (flow : nat).

(** The clients [ldap.createClient] returns, named by the connector
    that created them and their rank among its clients. *)
Record client : Type := Client { cl_owner : owner; cl_serial : nat }.

Definition owner_eqb (a b : owner) : bool :=
  match a, b with
  | Admin g, Admin h => Nat.eqb g h
  | User f, User g => Nat.eqb f g
  | _, _ => false
  end.

Definition client_eqb (a b : client) : bool :=
  owner_eqb (cl_owner a) (cl_owner b) && Nat.eqb (cl_serial a) (cl_serial b).

Inductive exn : Type :=
| AssertionError (what : string)
| TypeError (what : string).

(** What a handler does to the outside, in program order. *)
Inductive effect : Type :=
| CreateClient (c : client)
| Bind (c : client) (bindDn passwd : JS.value)
| SocketEnd (c : client)
| SetKeepAlive (c : client)
| Backoff (o : owner) (number : nat)
| Unbind (c : client)
| RemoveAllListeners (c : client) (name : string)
| Search (c : client) (base : JS.value) (filter : string)
| Hash (flow : nat) (password : string)
| Emit (name : string) (arg : option JS.error)
| CloseCb (k : nat) (err : option JS.error)
| AuthCb (id : nat) (err : option JS.error) (user : option UserRecord)
| Uncaught (e : exn).

(* ------------------------------------------------------------------ *)
(** ** [_createClient]: the retrying connector *)

Module Connector.

(** [FunctionCall.State_] of backoff. *)
Inductive fc_state : Type := Pending | Running | Completed | Aborted.

(** A JavaScript number that may be [Infinity]. *)
Inductive number : Type := Fin (z : Z) | Infinity.

(** The listeners of the client of the attempt under way: before the
    connection outcome ([connect], [error], [connectTimeout]), or
    waiting for the reply to [client.bind]. *)
Inductive attempt : Type :=
| NoAttempt
| Connecting (c : client)
| Binding (c : client).

(** The closure of one [_createClient] call: [dn], [passwd], the
    [retry] object with its [Backoff], and the [once] wrapper of
    [cb]. *)
Record t : Type := mk {
  own : owner;
  bindDn : JS.value;
  passwd : JS.value;
  state : fc_state;
  maxNumberOfRetry : number;
  backoffNumber : nat;
  timer : bool;
  current : attempt;
  serial : nat;
  cb_called : bool
}.

Definition set_state (s : fc_state) (k : t) : t :=
  mk (own k) (bindDn k) (passwd k) s (maxNumberOfRetry k) (backoffNumber k)
     (timer k) (current k) (serial k) (cb_called k).
Definition set_backoffNumber (n : nat) (k : t) : t :=
  mk (own k) (bindDn k) (passwd k) (state k) (maxNumberOfRetry k) n
     (timer k) (current k) (serial k) (cb_called k).
Definition set_timer (b : bool) (k : t) : t :=
  mk (own k) (bindDn k) (passwd k) (state k) (maxNumberOfRetry k) (backoffNumber k)
     b (current k) (serial k) (cb_called k).
Definition set_current (a : attempt) (k : t) : t :=
  mk (own k) (bindDn k) (passwd k) (state k) (maxNumberOfRetry k) (backoffNumber k)
     (timer k) a (serial k) (cb_called k).
Definition set_serial (n : nat) (k : t) : t :=
  mk (own k) (bindDn k) (passwd k) (state k) (maxNumberOfRetry k) (backoffNumber k)
     (timer k) (current k) n (cb_called k).
Definition set_cb_called (b : bool) (k : t) : t :=
  mk (own k) (bindDn k) (passwd k) (state k) (maxNumberOfRetry k) (backoffNumber k)
     (timer k) (current k) (serial k) b.

(** What [cb] receives: [(err, client)]. *)
Definition cbargs : Type := (option JS.error * option client)%type.

(** A handler of the connector performs effects and may call [cb];
    the order matters to the caller. *)
Inductive action : Type :=
| Do (e : effect)
| Call (args : cbargs).

(** [retryOpts.retries = retryOpts.retries || Infinity]. *)
Definition retries_or_Infinity (r : option RetryOpts) : number :=
  match r with
  | Some {| retries := Some z |} => if (z =? 0)%Z then Infinity else Fin z
  | _ => Infinity
  end.

(** [retry.failAfter(n)] followed by [retry.start()]: the limit reaches
    the [Backoff] only [if (this.failAfter_ > 0)]; its default is -1. *)
Definition failAfter (n : number) : number :=
  match n with
  | Infinity => Infinity
  | Fin z => if (0 <? z)%Z then Fin z else Fin (-1)
  end.

(** [this.backoffNumber_ === this.maxNumberOfRetry_]. *)
Definition exhausted (k : t) : bool :=
  match maxNumberOfRetry k with
  | Infinity => false
  | Fin z => (Z.of_nat (backoffNumber k) =? z)%Z
  end.

(** [cb = once(cb)]. *)
Definition call_cb (args : cbargs) (k : t) : t * list action :=
  if cb_called k then (k, [])
  else (set_cb_called true k, [Call args]).

(** [Backoff.prototype.reset]. *)
Definition reset (k : t) : t := set_timer false (set_backoffNumber 0 k).

(** [FunctionCall.prototype.abort]: a running call loses its timer; no
    callback runs.  (The service never aborts a completed call, see
    [completed_idle].) *)
Definition abort (k : t) : t :=
  match state k with
  | Completed => k
  | Running => set_state Aborted (reset k)
  | _ => set_state Aborted k
  end.

(** [_createClientAttempt]: [ldap.createClient(opts)] and the three
    [once] listeners. *)
Definition _createClientAttempt (k : t) : t * list action :=
  let c := Client (own k) (serial k) in
  (set_current (Connecting c) (set_serial (S (serial k)) k),
   [Do (CreateClient c)]).

(** [_cb(...)], that is [FunctionCall.prototype.handleFunctionCallback_]:
    - an aborted call ignores the result;
    - an error goes to [Backoff.prototype.backoff]: at the limit the
      [fail] event runs [cb] with this last result and the back-off is
      reset, otherwise the timer is armed and [backoff] is emitted;
    - anything else completes the call and runs [cb]. *)
Definition handleFunctionCallback (args : cbargs) (k : t) : t * list action :=
  match state k with
  | Aborted => (k, [])
  | _ =>
      if JS.is_err (fst args) then
        if exhausted k then
          let (k1, acts) := call_cb args k in (reset k1, acts)
        else (set_timer true k, [Do (Backoff (own k) (backoffNumber k))])
      else call_cb args (set_state Completed k)
  end.

(** [_createClient(opts, cb)] up to [retry.start()], which makes the
    first call at once. *)
Definition _createClient (o : owner) (dn pw : JS.value) (r : option RetryOpts)
  : t * list action :=
  _createClientAttempt
    (mk o dn pw Running (failAfter (retries_or_Infinity r)) 0 false NoAttempt 0 false).

(** What the environment delivers to the attempt under way, and the
    back-off timer firing ([ready]). *)
Inductive event : Type :=
| Connect
| ConnError (e : JS.error)
| ConnectTimeout
| BindReply (err : option JS.error)
| Ready.

Definition is_InvalidCredentialsError (err : option JS.error) : bool :=
  match err with
  | Some (JS.ErrObj n _) => (n =? "InvalidCredentialsError")
  | _ => false
  end.

Definition prepend (a : action) (r : t * list action) : t * list action :=
  (fst r, a :: snd r).

(** The handlers [onConnect], [onError], the [connectTimeout]
    listener, the callback of [client.bind], and the [ready] handler
    of the back-off timer ([doCall_(true)], then
    [backoffNumber_++]).  [closed] is [self.closed] when the handler
    runs.  An event no listener waits for is dropped. *)
Definition step (closed : bool) (ev : event) (k : t) : t * list action :=
  match ev, current k with
  | Connect, Connecting c =>
      if closed then
        prepend (Do (SocketEnd c))
          (handleFunctionCallback (None, None) (set_current NoAttempt k))
      else (set_current (Binding c) k, [Do (Bind c (bindDn k) (passwd k))])
  | ConnError e, Connecting c =>
      handleFunctionCallback (Some e, None) (set_current NoAttempt k)
  | ConnectTimeout, Connecting c =>
      handleFunctionCallback (Some (JS.Error "connect timeout"), None)
        (set_current NoAttempt k)
  | BindReply err, Binding c =>
      let k0 := set_current NoAttempt k in
      if closed then
        prepend (Do (SocketEnd c)) (handleFunctionCallback (None, None) k0)
      else if JS.is_err err then
        if is_InvalidCredentialsError err then
          let (k1, acts) := call_cb (err, None) k0 in
          (abort k1, acts ++ [Do (SocketEnd c)])
        else handleFunctionCallback (err, None) k0
      else
        prepend (Do (SetKeepAlive c)) (handleFunctionCallback (None, Some c) k0)
  | Ready, _ =>
      if timer k then
        let (k1, acts) := _createClientAttempt (set_timer false k) in
        (set_backoffNumber (S (backoffNumber k1)) k1, acts)
      else (k, [])
  | _, _ => (k, [])
  end.

(** A run of the connector: each event comes with the value of
    [self.closed] at that time. *)
Fixpoint run (evs : list (bool * event)) (k : t) : t * list action :=
  match evs with
  | [] => (k, [])
  | (closed, ev) :: evs' =>
      let (k1, a1) := step closed ev k in
      let (k2, a2) := run evs' k1 in
      (k2, a1 ++ a2)
  end.

Definition is_call (a : action) : bool :=
  match a with Call _ => true | Do _ => false end.
Definition is_create (a : action) : bool :=
  match a with Do (CreateClient _) => true | _ => false end.

(** How often [cb] ran, and how many connection attempts were made. *)
Definition calls (acts : list action) : nat := List.length (filter is_call acts).
Definition attempts (acts : list action) : nat := List.length (filter is_create acts).

(** How one attempt ends, seen from the directory. *)
Inductive outcome : Type :=
| ConnectFails (e : JS.error)
| TimesOut
| BindFails (e : JS.error)
| BindSucceeds.

Definition outcome_events (o : outcome) : list event :=
  match o with
  | ConnectFails e => [ConnError e]
  | TimesOut => [ConnectTimeout]
  | BindFails e => [Connect; BindReply (Some e)]
  | BindSucceeds => [Connect; BindReply None]
  end.

(** The failures the connector retries, and the outcomes that end the
    call whatever the limit. *)
Definition retryable (o : outcome) : bool :=
  match o with
  | ConnectFails e => JS.err_truthy e
  | TimesOut => true
  | BindFails e => JS.err_truthy e && negb (is_InvalidCredentialsError (Some e))
  | BindSucceeds => false
  end.

Definition conclusive (o : outcome) : bool :=
  match o with
  | BindSucceeds => true
  | BindFails e => is_InvalidCredentialsError (Some e)
  | _ => false
  end.

(** The events of a call whose first attempts fail, the timer firing
    after each failure, and whose last attempt ends with [final]. *)
Definition script (failures : list outcome) (final : outcome) : list event :=
  flat_map (fun o => outcome_events o ++ [Ready]) failures ++ outcome_events final.

(** The limit [n] lets [k] failures be retried. *)
Definition allows (n : number) (k : nat) : bool :=
  match n with
  | Infinity => true
  | Fin z => (z <? 0)%Z || (Z.of_nat k <=? z)%Z
  end.

(** Nothing is under way: no client waits for an outcome, no timer is
    armed. *)
Definition idle (k : t) : Prop := current k = NoAttempt /\ timer k = false.

Definition idleb (k : t) : bool :=
  match current k with NoAttempt => negb (timer k) | _ => false end.

(** What holds of the closure of every [_createClient] call at every
    moment: once [cb] has run, or the call is completed or not
    started, nothing is under way; an aborted call has no timer; a
    timer and an attempt exclude each other; the client of the attempt
    is the connector's own. *)
Definition wf (k : t) : Prop :=
  (implb (cb_called k) (idleb k)
   && match state k with
      | Aborted => negb (timer k)
      | Completed | Pending => idleb k
      | Running => true
      end
   && match current k with
      | NoAttempt => true
      | Connecting c | Binding c => negb (timer k) && owner_eqb (cl_owner c) (own k)
      end) = true.

(** An attempt has just started and nothing was reported yet. *)
Definition fresh (k : t) : Prop :=
  state k = Running /\
  (exists c, current k = Connecting c /\ cl_owner c = own k) /\
  timer k = false /\ cb_called k = false.

(** The limit lets [n] more failures be retried. *)
Definition room (k : t) (n : nat) : Prop :=
  match maxNumberOfRetry k with
  | Infinity => True
  | Fin z => (z < Z.of_nat (backoffNumber k))%Z \/ (Z.of_nat (backoffNumber k + n) <= z)%Z
  end.

(** Same closure, one more retry counted. *)
Definition next (k k' : t) : Prop :=
  backoffNumber k' = S (backoffNumber k) /\
  maxNumberOfRetry k' = maxNumberOfRetry k /\
  bindDn k' = bindDn k /\ passwd k' = passwd k /\ own k' = own k.

End Connector.

(* ------------------------------------------------------------------ *)
(** ** The credential cache *)

(** Modelled from the spec: lib/cache.js is not among the sources.  The
    spec gives it as a capability with [get(key)] returning the entry or
    nothing and [set(key, entry)]; entries leave it by capacity or age,
    which is an event of the environment ([expire]). *)
Module Cache.

(** [{password: <hashed-password>, user: <user>}]. *)
Record entry : Type := { password : string; user : UserRecord }.

Definition t : Type := list (string * entry).

Definition empty : t := [].

Fixpoint get (key : string) (c : t) : option entry :=
  match c with
  | [] => None
  | (k, e) :: c' => if (k =? key)%string then Some e else get key c'
  end.

Fixpoint expire (key : string) (c : t) : t :=
  match c with
  | [] => []
  | (k, e) :: c' =>
      if (k =? key)%string then expire key c' else (k, e) :: expire key c'
  end.

Definition set (key : string) (e : entry) (c : t) : t :=
  (key, e) :: expire key c.

End Cache.

(* ------------------------------------------------------------------ *)
(** ** The service *)

(** What the callback of [_findUser] receives: [(err, user)]. *)
Definition found : Type := (option JS.error * option UserRecord)%type.

(** The events of the [result] emitter of a search. *)
Inductive result_event : Type :=
| searchEntry (object : UserRecord)
| searchError (err : JS.error)
| searchEnd (status : Z).

(** A search of [_findUser] under way: the closure of the callback
    [authenticate] passed ([id] names the caller's [callback]) and the
    stage of the search. *)
Inductive search_stage : Type :=
| AwaitResult
| Collecting (items : list UserRecord)
| Failed.

Record search : Type := {
  s_call : nat;
  s_username : string;
  s_password : string;
  s_stage : search_stage
}.

(** A password check of [authenticate] under way: step 2 and after. *)
Inductive flow_stage : Type := Verifying | Unbinding | Hashing | Finished.

Record flow : Type := {
  f_call : nat;
  f_username : string;
  f_password : string;
  f_user : UserRecord;
  f_conn : Connector.t;
  f_stage : flow_stage
}.

Record State : Type := mkState {
  opts : Opts;
  closed : bool;
  _adminClient : option client;
  _adminConnecting : bool;
  adminRetry : Connector.t;
  generation : nat;
  handleClose_listeners : list (client * string);
  proxy_listeners : list client;
  close_unbinds : list (option nat);
  userCache : Cache.t;
  searches : list search;
  flows : list flow
}.

Definition set_closed (v : bool) (st : State) : State :=
  mkState (opts st) v (_adminClient st) (_adminConnecting st) (adminRetry st) (generation st) (handleClose_listeners st) (proxy_listeners st) (close_unbinds st) (userCache st) (searches st) (flows st).
Definition set_adminClient (v : option client) (st : State) : State :=
  mkState (opts st) (closed st) v (_adminConnecting st) (adminRetry st) (generation st) (handleClose_listeners st) (proxy_listeners st) (close_unbinds st) (userCache st) (searches st) (flows st).
Definition set_adminConnecting (v : bool) (st : State) : State :=
  mkState (opts st) (closed st) (_adminClient st) v (adminRetry st) (generation st) (handleClose_listeners st) (proxy_listeners st) (close_unbinds st) (userCache st) (searches st) (flows st).
Definition set_adminRetry (v : Connector.t) (st : State) : State :=
  mkState (opts st) (closed st) (_adminClient st) (_adminConnecting st) v (generation st) (handleClose_listeners st) (proxy_listeners st) (close_unbinds st) (userCache st) (searches st) (flows st).
Definition set_generation (v : nat) (st : State) : State :=
  mkState (opts st) (closed st) (_adminClient st) (_adminConnecting st) (adminRetry st) v (handleClose_listeners st) (proxy_listeners st) (close_unbinds st) (userCache st) (searches st) (flows st).
Definition set_handleClose_listeners (v : list (client * string)) (st : State) : State :=
  mkState (opts st) (closed st) (_adminClient st) (_adminConnecting st) (adminRetry st) (generation st) v (proxy_listeners st) (close_unbinds st) (userCache st) (searches st) (flows st).
Definition set_proxy_listeners (v : list client) (st : State) : State :=
  mkState (opts st) (closed st) (_adminClient st) (_adminConnecting st) (adminRetry st) (generation st) (handleClose_listeners st) v (close_unbinds st) (userCache st) (searches st) (flows st).
Definition set_close_unbinds (v : list (option nat)) (st : State) : State :=
  mkState (opts st) (closed st) (_adminClient st) (_adminConnecting st) (adminRetry st) (generation st) (handleClose_listeners st) (proxy_listeners st) v (userCache st) (searches st) (flows st).
Definition set_userCache (v : Cache.t) (st : State) : State :=
  mkState (opts st) (closed st) (_adminClient st) (_adminConnecting st) (adminRetry st) (generation st) (handleClose_listeners st) (proxy_listeners st) (close_unbinds st) v (searches st) (flows st).
Definition set_searches (v : list search) (st : State) : State :=
  mkState (opts st) (closed st) (_adminClient st) (_adminConnecting st) (adminRetry st) (generation st) (handleClose_listeners st) (proxy_listeners st) (close_unbinds st) (userCache st) v (flows st).
Definition set_flows (v : list flow) (st : State) : State :=
  mkState (opts st) (closed st) (_adminClient st) (_adminConnecting st) (adminRetry st) (generation st) (handleClose_listeners st) (proxy_listeners st) (close_unbinds st) (userCache st) (searches st) v.

Definition set_f_conn (k : Connector.t) (fl : flow) : flow :=
  Build_flow (f_call fl) (f_username fl) (f_password fl) (f_user fl) k (f_stage fl).
Definition set_f_stage (g : flow_stage) (fl : flow) : flow :=
  Build_flow (f_call fl) (f_username fl) (f_password fl) (f_user fl) (f_conn fl) g.
Definition set_s_stage (g : search_stage) (s : search) : search :=
  Build_search (s_call s) (s_username s) (s_password s) g.

(** [l[i] = x] on an index in range. *)
Fixpoint upd {A : Type} (i : nat) (x : A) (l : list A) : list A :=
  match l, i with
  | [], _ => []
  | _ :: l', O => x :: l'
  | y :: l', S i' => y :: upd i' x l'
  end.

Definition mem_listener (c : client) (name : string) (l : list (client * string)) : bool :=
  existsb (fun p => client_eqb (fst p) c && (snd p =? name)%string) l.
Definition remove_listener (c : client) (name : string) (l : list (client * string))
  : list (client * string) :=
  filter (fun p => negb (client_eqb (fst p) c && (snd p =? name)%string)) l.

Definition LDAP_PROXY_EVENTS : list string := ["timeout"; "socketTimeout"].

(** The effects among the actions of a handler that does not call back. *)
Fixpoint effects_of (acts : list Connector.action) : list effect :=
  match acts with
  | [] => []
  | Connector.Do e :: r => e :: effects_of r
  | Connector.Call _ :: r => effects_of r
  end.

(** Run the actions of a connector handler in order, [cb] being [K]. *)
Fixpoint perform (K : Connector.cbargs -> State -> State * list effect)
    (acts : list Connector.action) (st : State) : State * list effect :=
  match acts with
  | [] => (st, [])
  | Connector.Do e :: r =>
      let (st1, es) := perform K r st in (st1, e :: es)
  | Connector.Call a :: r =>
      let (st1, e1) := K a st in
      let (st2, e2) := perform K r st1 in
      (st2, e1 ++ e2)
  end.

(** [util.format] of the two messages of the source. *)
Definition no_such_user (username : string) : string :=
  ("no such user: " ++ JS.dquote ++ username ++ JS.dquote)%string.
Definition unexpected_matches (n : nat) (username : string) : string :=
  ("unexpected number of matches (" ++ JS.string_of_nat n ++ ") for "
   ++ JS.dquote ++ username ++ JS.dquote ++ " username")%string.
Definition non_zero_status (status : Z) : string :=
  ("non-zero status from LDAP search: " ++ JS.string_of_Z status)%string.

(** The three listeners [_findUser] puts on [result]; [items] is the
    array they share.  The listeners stay for the life of [result]. *)
Definition findUser_on (username : string) (items : list UserRecord)
    (ev : result_event) : list UserRecord * option found :=
  match ev with
  | searchEntry o => (items ++ [o], None)
  | searchError err => (items, Some (Some err, None))
  | searchEnd status =>
      if negb (status =? 0)%Z then
        (items, Some (Some (JS.ErrStr (non_zero_status status)), None))
      else
        match items with
        | [] => (items, Some (None, None))
        | [u] => (items, Some (None, Some u))
        | _ =>
            (items,
             Some (Some (JS.ErrStr (unexpected_matches (List.length items) username)),
                   None))
        end
  end.

(** The calls of the callback over a whole sequence of [result] events. *)
Fixpoint findUser_results (username : string) (items : list UserRecord)
    (evs : list result_event) : list found :=
  match evs with
  | [] => []
  | ev :: evs' =>
      let (items', out) := findUser_on username items ev in
      match out with
      | Some r => r :: findUser_results username items' evs'
      | None => findUser_results username items' evs'
      end
  end.

(** The policy of the [end] listener, as a function of the entries
    collected. *)
Definition by_count (username : string) (items : list UserRecord) : found :=
  match items with
  | [] => (None, None)
  | [u] => (None, Some u)
  | _ => (Some (JS.ErrStr (unexpected_matches (List.length items) username)), None)
  end.

(** [_findUser] up to the call of [search]: it calls back at once with
    an error, or sends the search, or fails on [replace]. *)
Inductive findUser_start : Type :=
| CallbackNow (err : JS.error)
| SearchSent (c : client) (base : JS.value) (filter : string)
| Throws (e : exn).

Definition _findUser (username : string) (st : State) : findUser_start :=
  if (username =? EmptyString)%string then
    CallbackNow (JS.Error "empty username")
  else
    match _adminClient st with
    | None => CallbackNow (JS.Error "LDAP connection is not yet bound")
    | Some c =>
        match searchFilter (opts st) with
        | JS.Str template =>
            SearchSent c (searchBase (opts st))
              (JS.replace template "{{username}}" username)
        | _ => Throws (TypeError "opts.searchFilter.replace is not a function")
        end
    end.

Definition issues_search (r : findUser_start) : bool :=
  match r with
  | SearchSent _ _ _ => true
  | _ => false
  end.

(** The four assertions of the constructor, in order. *)
Definition validate (o : Opts) : option exn :=
  match url o with
  | JS.Str _ =>
      if negb (JS.truthy (adminDn o)) then Some (AssertionError "opts.adminDn")
      else if negb (JS.truthy (searchBase o)) then Some (AssertionError "opts.searchBase")
      else if negb (JS.truthy (searchFilter o)) then Some (AssertionError "opts.searchFilter")
      else None
  | _ => Some (AssertionError "opts.url (string) is required")
  end.

(** What the application and the environment do to a running service. *)
Inductive event : Type :=
| ConnectorEvent (o : owner) (ev : Connector.event)
| ClientEvent (c : client) (name : string)
| Close (k : nat)
| CloseUnbound (i : nat) (err : option JS.error)
| Authenticate (id : nat) (username password : string)
| SearchResult (s : nat) (err : option JS.error)
| ResultEvent (s : nat) (ev : result_event)
| UserUnbound (f : nat) (err : option JS.error)
| Hashed (f : nat) (hash : string)
| CacheExpired (key : string).

(** [adminConnect]: a new connector for the admin credentials; its
    [retry] object is kept in [_adminConnecting]. *)
Definition adminConnect (st : State) : State * list effect :=
  let (k, acts) :=
    Connector._createClient (Admin (generation st)) (adminDn (opts st))
      (adminPassword (opts st)) (retry (opts st)) in
  (set_generation (S (generation st))
     (set_adminConnecting true (set_adminRetry k st)),
   effects_of acts).

(** The callback [adminConnect] gives to [_createClient]. *)
Definition adminConnected (args : Connector.cbargs) (st : State)
  : State * list effect :=
  let st := set_adminConnecting false st in
  if JS.is_err (fst args) then (st, [Emit "error" (fst args)])
  else
    match snd args with
    | Some c =>
        if closed st then (st, [Unbind c])
        else
          (set_adminClient (Some c)
             (set_proxy_listeners (c :: proxy_listeners st)
                (set_handleClose_listeners
                   ((c, "error") :: (c, "close") :: handleClose_listeners st) st)),
           [Emit "connect" None])
    | None => (st, [Uncaught (TypeError "cannot read property once of undefined")])
    end.

(** [handleClose], the listener of [error] and [close] on the admin
    client. *)
Definition handleClose (st : State) : State * list effect :=
  match _adminClient st with
  | Some _ =>
      if negb (_adminConnecting st) && negb (closed st)
      then adminConnect (set_adminClient None st)
      else (st, [])
  | None => (st, [])
  end.

(** [LdapAuth.prototype.close]. *)
Definition close (k : nat) (st : State) : State * list effect :=
  let st := set_closed true st in
  match _adminClient st with
  | None =>
      (if _adminConnecting st
       then set_adminRetry (Connector.abort (adminRetry st)) st
       else st,
       [CloseCb k None])
  | Some c =>
      (set_close_unbinds (close_unbinds st ++ [Some k])
         (set_proxy_listeners
            (filter (fun d => negb (client_eqb d c)) (proxy_listeners st)) st),
       map (RemoveAllListeners c) LDAP_PROXY_EVENTS ++ [Unbind c])
  end.

(** The callback of [this._adminClient.unbind] in [close]. *)
Definition close_unbound (i : nat) (err : option JS.error) (st : State)
  : State * list effect :=
  match nth_error (close_unbinds st) i with
  | Some (Some k) =>
      (set_close_unbinds (upd i None (close_unbinds st)) st,
       if JS.is_err err then [CloseCb k err]
       else [CloseCb k None; Emit "close" None])
  | _ => (st, [])
  end.

(** The callback [authenticate] gives to [_createClient]. *)
Definition verified (f : nat) (args : Connector.cbargs) (st : State)
  : State * list effect :=
  match nth_error (flows st) f with
  | None => (st, [])
  | Some fl =>
      if JS.is_err (fst args) then
        (set_flows (upd f (set_f_stage Finished fl) (flows st)) st,
         [AuthCb (f_call fl) (fst args) None])
      else
        match snd args with
        | Some c =>
            (set_flows (upd f (set_f_stage Unbinding fl) (flows st)) st,
             [Unbind c])
        | None =>
            (set_flows (upd f (set_f_stage Finished fl) (flows st)) st,
             [Uncaught (TypeError "cannot read property unbind of undefined")])
        end
  end.

(** The callback [authenticate] gives to [_findUser]. *)
Definition user_found (id : nat) (username password : string) (r : found)
    (st : State) : State * list effect :=
  if JS.is_err (fst r) then (st, [AuthCb id (fst r) None])
  else
    match snd r with
    | None => (st, [AuthCb id (Some (JS.ErrStr (no_such_user username))) None])
    | Some u =>
        let f := List.length (flows st) in
        let (k, acts) :=
          Connector._createClient (User f) (JS.Str (dn u)) (JS.Str password)
            (retry (opts st)) in
        (set_flows (flows st ++ [Build_flow id username password u k Verifying]) st,
         effects_of acts)
    end.

Section Service.

(** [bcrypt.compareSync(password, hash)]. *)
Variable compareSync : string -> string -> bool.

(** [LdapAuth.prototype.authenticate] up to its first suspension. *)
Definition authenticate (id : nat) (username password : string) (st : State)
  : State * list effect :=
  let hit :=
    if JS.truthy (cache (opts st)) then
      match Cache.get username (userCache st) with
      | Some cached =>
          if compareSync password (Cache.password cached)
          then Some (Cache.user cached) else None
      | None => None
      end
    else None in
  match hit with
  | Some u => (st, [AuthCb id None (Some u)])
  | None =>
      match _findUser username st with
      | CallbackNow err => user_found id username password (Some err, None) st
      | SearchSent c base filter =>
          (set_searches
             (searches st ++ [Build_search id username password AwaitResult]) st,
           [Search c base filter])
      | Throws e => (st, [Uncaught e])
      end
  end.

(** One handler run. *)
Definition step (ev : event) (st : State) : State * list effect :=
  match ev with
  | ConnectorEvent (Admin g) cev =>
      if owner_eqb (Connector.own (adminRetry st)) (Admin g) then
        let (k, acts) := Connector.step (closed st) cev (adminRetry st) in
        perform adminConnected acts (set_adminRetry k st)
      else (st, [])
  | ConnectorEvent (User f) cev =>
      match nth_error (flows st) f with
      | Some fl =>
          let (k, acts) := Connector.step (closed st) cev (f_conn fl) in
          perform (verified f) acts
            (set_flows (upd f (set_f_conn k fl) (flows st)) st)
      | None => (st, [])
      end
  | ClientEvent c name =>
      if mem_listener c name (handleClose_listeners st) then
        handleClose
          (set_handleClose_listeners
             (remove_listener c name (handleClose_listeners st)) st)
      else if existsb (String.eqb name) LDAP_PROXY_EVENTS
              && existsb (client_eqb c) (proxy_listeners st)
      then (st, [Emit name None])
      else (st, [])
  | Close k => close k st
  | CloseUnbound i err => close_unbound i err st
  | Authenticate id username password => authenticate id username password st
  | SearchResult s err =>
      match nth_error (searches st) s with
      | Some sr =>
          match s_stage sr with
          | AwaitResult =>
              if JS.is_err err then
                user_found (s_call sr) (s_username sr) (s_password sr) (err, None)
                  (set_searches (upd s (set_s_stage Failed sr) (searches st)) st)
              else
                (set_searches (upd s (set_s_stage (Collecting []) sr) (searches st)) st,
                 [])
          | _ => (st, [])
          end
      | None => (st, [])
      end
  | ResultEvent s rev =>
      match nth_error (searches st) s with
      | Some sr =>
          match s_stage sr with
          | Collecting items =>
              let (items', out) := findUser_on (s_username sr) items rev in
              let st1 :=
                set_searches (upd s (set_s_stage (Collecting items') sr) (searches st)) st in
              match out with
              | Some r => user_found (s_call sr) (s_username sr) (s_password sr) r st1
              | None => (st1, [])
              end
          | _ => (st, [])
          end
      | None => (st, [])
      end
  | UserUnbound f unbindErr =>
      match nth_error (flows st) f with
      | Some fl =>
          match f_stage fl with
          | Unbinding =>
              if JS.truthy (cache (opts st)) then
                (set_flows (upd f (set_f_stage Hashing fl) (flows st)) st,
                 [Hash f (f_password fl)])
              else
                (set_flows (upd f (set_f_stage Finished fl) (flows st)) st,
                 [AuthCb (f_call fl) None (Some (f_user fl))])
          | _ => (st, [])
          end
      | None => (st, [])
      end
  | Hashed f hash =>
      match nth_error (flows st) f with
      | Some fl =>
          match f_stage fl with
          | Hashing =>
              (set_userCache
                 (Cache.set (f_username fl)
                    {| Cache.password := hash; Cache.user := f_user fl |}
                    (userCache st))
                 (set_flows (upd f (set_f_stage Finished fl) (flows st)) st),
               [AuthCb (f_call fl) None (Some (f_user fl))])
          | _ => (st, [])
          end
      | None => (st, [])
      end
  | CacheExpired key => (set_userCache (Cache.expire key (userCache st)) st, [])
  end.

(** A run of the service and its trace. *)
Fixpoint run (evs : list event) (st : State) : State * list effect :=
  match evs with
  | [] => (st, [])
  | ev :: evs' =>
      let (st1, e1) := step ev st in
      let (st2, e2) := run evs' st1 in
      (st2, e1 ++ e2)
  end.

End Service.


(** [new LdapAuth(opts)]: the assertions, then the fields and the first
    [adminConnect]. *)
Definition LdapAuth (o : Opts) : exn + State * list effect :=
  match validate o with
  | Some e => inl e
  | None =>
      inr (adminConnect
             (mkState o false None false
                (Connector.mk (Admin 0) JS.Undefined JS.Undefined Connector.Pending
                   (Connector.Fin (-1)) 0 false Connector.NoAttempt 0 false)
                0 [] [] [] Cache.empty [] []))
  end.


(* ------------------------------------------------------------------ *)
(** ** Observations on traces *)

(** The connections opened by the connector of [o]. *)
Definition is_attempt_of (o : owner) (e : effect) : bool :=
  match e with
  | CreateClient c => owner_eqb (cl_owner c) o
  | _ => false
  end.
Definition attempts_of (o : owner) (tr : list effect) : nat :=
  List.length (filter (is_attempt_of o) tr).

(** The connections and binds of a trace are those of the connector of
    [o], and every bind is made as [d] with password [p]. *)
Definition made_as (o : owner) (d p : JS.value) (e : effect) : Prop :=
  match e with
  | CreateClient c => cl_owner c = o
  | Bind c d' p' => cl_owner c = o /\ d' = d /\ p' = p
  | _ => True
  end.

Definition acts_as (o : owner) (d p : JS.value) (a : Connector.action) : Prop :=
  match a with
  | Connector.Do e => made_as o d p e
  | Connector.Call _ => True
  end.

(** Neither a connection nor a bind. *)
Definition quiet (e : effect) : Prop :=
  match e with
  | CreateClient _ | Bind _ _ _ => False
  | _ => True
  end.

(** The connections opened in a trace, whoever opened them. *)
Definition is_create (e : effect) : bool :=
  match e with
  | CreateClient _ => true
  | _ => false
  end.
Definition creates (tr : list effect) : nat := List.length (filter is_create tr).

(** How often the callback [id] of [authenticate] ran. *)
Definition is_AuthCb (id : nat) (e : effect) : bool :=
  match e with
  | AuthCb i _ _ => Nat.eqb i id
  | _ => false
  end.
Definition auth_callbacks (id : nat) (tr : list effect) : nat :=
  List.length (filter (is_AuthCb id) tr).


(** The trace of a service from its construction. *)
Definition trace (compareSync : string -> string -> bool) (o : Opts)
    (evs : list event) : list effect :=
  match LdapAuth o with
  | inl e => [Uncaught e]
  | inr (st, es) => es ++ snd (run compareSync evs st)
  end.







(** The flow [f] keeps its connector [k] and the service its flag. *)
Definition flow_has (f : nat) (k : Connector.t) (c : bool) (st : State) : Prop :=
  closed st = c /\
  exists fl, nth_error (flows st) f = Some fl /\ f_conn fl = k.

(** The state of a service after its construction and some events. *)
Definition after (compareSync : string -> string -> bool) (o : Opts)
    (evs : list event) : option State :=
  match LdapAuth o with
  | inl _ => None
  | inr (st, _) => Some (fst (run compareSync evs st))
  end.

(* ------------------------------------------------------------------ *)
(** ** The scenario of the specification *)

Module Scenario.

Definition config : Opts :=
  {| url := JS.Str "ldaps://ldap.example.com:663";
     adminDn := JS.Str "cn=admin";
     adminPassword := JS.Str "adminpw";
     searchBase := JS.Str "ou=users";
     searchFilter := JS.Str "(uid={{username}})";
     cache := JS.Undefined;
     retry := None |}.

Definition jdoe : UserRecord :=
  {| dn := "uid=jdoe,ou=users"; attributes := [("uid", "jdoe")] |}.

(** A comparison for the examples: the hash is the password. *)
Definition compareSync : string -> string -> bool := String.eqb.

(** The admin session connects and binds at the first attempt. *)
Definition admin_connected : list event :=
  [ConnectorEvent (Admin 0) Connector.Connect;
   ConnectorEvent (Admin 0) (Connector.BindReply None)].

(** [authenticate(username, password)] finds exactly [jdoe]. *)
Definition jdoe_resolved (id : nat) (username password : string) : list event :=
  [Authenticate id username password;
   SearchResult 0 None;
   ResultEvent 0 (searchEntry jdoe);
   ResultEvent 0 (searchEnd 0)].

Definition ECONNREFUSED : JS.error := JS.Error "connect ECONNREFUSED".
Definition UnavailableError : JS.error := JS.ErrObj "UnavailableError" "busy".
Definition InvalidCredentialsError : JS.error :=
  JS.ErrObj "InvalidCredentialsError" "invalid credentials".

(** The service as the constructor leaves it. *)
Definition started_with (o : Opts) : State :=
  match LdapAuth o with
  | inr (st, _) => st
  | inl _ =>
      mkState o false None false
        (fst (Connector._createClient (Admin 0) JS.Undefined JS.Undefined None))
        0 [] [] [] Cache.empty [] []
  end.

Definition started : State := started_with config.

(** The service once the admin session is connected. *)
Definition connected : State :=
  fst (run compareSync admin_connected started).

(** The same configuration with the cache, and the service after one
    successful [authenticate("jdoe", "secret")]. *)
Definition caching : Opts :=
  {| url := url config;
     adminDn := adminDn config;
     adminPassword := adminPassword config;
     searchBase := searchBase config;
     searchFilter := searchFilter config;
     cache := JS.Bool true;
     retry := None |}.

Definition authenticated_once : list event :=
  admin_connected
  ++ jdoe_resolved 0 "jdoe" "secret"
  ++ [ConnectorEvent (User 0) Connector.Connect;
      ConnectorEvent (User 0) (Connector.BindReply None);
      UserUnbound 0 None;
      Hashed 0 "secret"].

Definition cached : State :=
  fst (run compareSync authenticated_once (started_with caching)).


End Scenario.

(* ------------------------------------------------------------------ *)
(** ** More observations on the connector *)


(** The events of failed attempts, the timer firing after each. *)
Definition failing (failures : list Connector.outcome) : list Connector.event :=
  flat_map (fun o => Connector.outcome_events o ++ [Connector.Ready]) failures.

(** The calls of [cb] among the actions, with their arguments. *)
Fixpoint calls_of (acts : list Connector.action) : list Connector.cbargs :=
  match acts with
  | [] => []
  | Connector.Call a :: r => a :: calls_of r
  | Connector.Do _ :: r => calls_of r
  end.

(** The clients opened among the actions, in order. *)
Fixpoint clients_of (acts : list Connector.action) : list client :=
  match acts with
  | [] => []
  | Connector.Do (CreateClient c) :: r => c :: clients_of r
  | _ :: r => clients_of r
  end.

Definition b2n (b : bool) : nat := if b then 1 else 0.


(* ------------------------------------------------------------------ *)
(** ** The lifecycle of the service *)









(* ------------------------------------------------------------------ *)
(** ** [authenticate] from call to callback *)

(** [authenticate] is not served from the cache: the cache is off, or
    holds nothing for the username, or the password does not match the
    stored hash. *)
Definition cache_misses (compareSync : string -> string -> bool)
    (username password : string) (st : State) : Prop :=
  JS.truthy (cache (opts st)) = false \/
  match Cache.get username (userCache st) with
  | Some cached => compareSync password (Cache.password cached) = false
  | None => True
  end.

(** The events of a search that answers and delivers [entries]. *)
Definition search_delivers (s : nat) (entries : list UserRecord) : list event :=
  SearchResult s None :: map (fun u => ResultEvent s (searchEntry u)) entries.

(** More states of the scenario. *)
Module ScenarioMore.


(** A configuration whose search filter is a number, and its service
    once connected. *)
Definition numeric_filter : Opts :=
  {| url := url Scenario.config;
     adminDn := adminDn Scenario.config;
     adminPassword := adminPassword Scenario.config;
     searchBase := searchBase Scenario.config;
     searchFilter := JS.Num 42;
     cache := JS.Undefined;
     retry := None |}.

Definition connected_numeric : State :=
  fst (run Scenario.compareSync Scenario.admin_connected
         (Scenario.started_with numeric_filter)).

Definition jsmith : UserRecord :=
  {| dn := "uid=jsmith,ou=users"; attributes := [("uid", "jsmith")] |}.

End ScenarioMore.

(* ------------------------------------------------------------------ *)
(** ** The connector: invariant *)

Module ConnectorFacts.
Import Connector.

Lemma owner_eqb_refl o : owner_eqb o o = true.
Proof. destruct o; simpl; apply Nat.eqb_refl. Qed.


Ltac split_connector k :=
  let s := fresh "s" in let tm := fresh "tm" in
  let a := fresh "a" in let cb := fresh "cb" in
  destruct k as [? ? ? s ? ? tm a ? cb];
  destruct s, tm, a, cb; simpl in *; try discriminate.

Ltac crush_connector :=
  unfold wf, idle, idleb, step, handleFunctionCallback, call_cb, abort, reset,
    _createClientAttempt, prepend, exhausted in *;
  simpl in *;
  repeat match goal with
    | |- context [match ?x with _ => _ end] => destruct x eqn:?; simpl in *
    | |- context [if ?x then _ else _] => destruct x eqn:?; simpl in *
    end;
  simpl in *; rewrite ?owner_eqb_refl; try solve [intuition congruence].

Lemma wf_idle k : wf k -> cb_called k = true -> idle k.
Proof. unfold wf, idle, idleb; split_connector k; intuition congruence. Qed.

Lemma wf_attempt k :
  wf k -> current k <> NoAttempt ->
  cb_called k = false /\ timer k = false /\ (state k = Running \/ state k = Aborted).
Proof. unfold wf, idle, idleb; split_connector k; intuition congruence. Qed.

Lemma wf_aborted k : wf k -> state k = Aborted -> timer k = false.
Proof. unfold wf, idle, idleb; split_connector k; intuition congruence. Qed.




Lemma wf_step closed ev k : wf k -> wf (fst (step closed ev k)).
Proof.
  unfold wf, idleb; intros H; split_connector k;
    destruct ev, closed; crush_connector.
Qed.

Lemma wf_run evs : forall k, wf k -> wf (fst (run evs k)).
Proof.
  induction evs as [|[c ev] evs IH]; intros k H; simpl; auto.
  pose proof (wf_step c ev k H) as H1.
  destruct (step c ev k) as [k1 a1]; simpl in H1.
  specialize (IH k1 H1).
  destruct (run evs k1) as [k2 a2]; simpl in *; auto.
Qed.



End ConnectorFacts.

(* ------------------------------------------------------------------ *)
(** ** [_findUser]: the filter *)

Lemma GetSubstitution_plain matched before rest repl :
  JS.contains_char "$" repl = false ->
  JS.GetSubstitution matched before rest repl = repl.
Proof.
  induction repl as [|c r IH]; cbn [JS.GetSubstitution JS.contains_char]; intros H; auto.
  apply orb_false_iff in H; destruct H as [Hc Hr].
  rewrite Ascii.eqb_sym, Hc, (IH Hr); reflexivity.
Qed.

(** A username without [$] is inserted verbatim at the first occurrence
    of the token. *)
Lemma replace_plain_username template token username :
  JS.contains_char "$" username = false ->
  JS.replace template token username = JS.insert_at_first template token username.
Proof.
  intros H; unfold JS.replace, JS.insert_at_first.
  destruct (JS.split_first token template) as [[before rest]|]; auto.
  rewrite (GetSubstitution_plain _ _ _ _ H); reflexivity.
Qed.

Lemma strip_prefix_sound p : forall s rest,
  JS.strip_prefix p s = Some rest -> s = (p ++ rest)%string.
Proof.
  induction p as [|a p IH]; simpl; intros s rest H.
  - congruence.
  - destruct s as [|b s]; try discriminate.
    destruct (Ascii.eqb_spec a b) as [->|]; try discriminate.
    rewrite (IH _ _ H); reflexivity.
Qed.

(** [split_first] cuts the text around an occurrence of the token. *)
Lemma split_first_sound p : forall s before rest,
  JS.split_first p s = Some (before, rest) -> s = (before ++ p ++ rest)%string.
Proof.
  induction s as [|c s IH]; intros before rest H.
  - simpl in H. destruct (JS.strip_prefix p EmptyString) eqn:E; try discriminate.
    injection H as <- <-. apply strip_prefix_sound in E. exact E.
  - cbn [JS.split_first] in H.
    destruct (JS.strip_prefix p (String c s)) eqn:E.
    + injection H as <- <-. apply strip_prefix_sound in E. exact E.
    + destruct (JS.split_first p s) as [[b r]|] eqn:E'; try discriminate.
      injection H as <- <-. rewrite (IH _ _ eq_refl). reflexivity.
Qed.

(** C10: [_findUser] sends the template with the first [{{username}}]
    replaced, but the username goes through the replacement patterns of
    [String.prototype.replace]: for the username [a$$b] the filter sent
    is [(uid=a$b)], where a verbatim insertion gives [(uid=a$$b)]. *)
Theorem findUser_filter_expands_dollar_patterns :
  _findUser "a$$b" Scenario.connected
  = SearchSent (Client (Admin 0) 0) (JS.Str "ou=users") "(uid=a$b)" /\
  JS.insert_at_first "(uid={{username}})" "{{username}}" "a$$b" = "(uid=a$$b)".
Proof. split; reflexivity. Qed.

(* ------------------------------------------------------------------ *)
(** ** [_findUser]: preconditions and result policy *)

(** C8: a call of [_findUser] with an empty username, or while no admin
    client is stored, calls back at once with an error and sends no
    search; the error is the empty-username error for an empty
    username, and the not-yet-bound error otherwise. *)
Theorem findUser_preconditions (username : string) (st : State) :
  username = EmptyString \/ _adminClient st = None ->
  exists err,
    _findUser username st = CallbackNow err /\
    issues_search (_findUser username st) = false /\
    (username = EmptyString -> err = JS.Error "empty username") /\
    (username <> EmptyString -> err = JS.Error "LDAP connection is not yet bound").
Proof.
  intros H; unfold _findUser.
  destruct (String.eqb_spec username EmptyString) as [E|E].
  - eexists; repeat split; congruence.
  - destruct H as [H|H]; [contradiction|]. rewrite H.
    eexists; repeat split; congruence.
Qed.

Lemma findUser_preconditions_witness :
  exists err,
    _findUser "jdoe" (set_adminClient None Scenario.connected) = CallbackNow err /\
    issues_search (_findUser "jdoe" (set_adminClient None Scenario.connected)) = false /\
    ("jdoe" = EmptyString -> err = JS.Error "empty username") /\
    ("jdoe" <> EmptyString -> err = JS.Error "LDAP connection is not yet bound").
Proof. apply findUser_preconditions. right. reflexivity. Defined.

Lemma findUser_results_entries username entries : forall items,
  findUser_results username items (map searchEntry entries ++ [searchEnd 0])
  = [by_count username (items ++ entries)].
Proof.
  induction entries as [|e entries IH]; intros items; simpl.
  - rewrite app_nil_r. destruct items as [|u [|v items]]; reflexivity.
  - rewrite IH, <- app_assoc. reflexivity.
Qed.

(** C4: a search whose entries are followed by [end] with status 0 makes
    [_findUser] call back once, by the number of entries alone: none
    gives no error and no user, one gives that entry's record, more
    give the unexpected-number-of-matches error. *)
Theorem findUser_status_zero_by_count (username : string) (entries : list UserRecord) :
  findUser_results username [] (map searchEntry entries ++ [searchEnd 0])
  = [match entries with
     | [] => (None, None)
     | [u] => (None, Some u)
     | _ =>
         (Some (JS.ErrStr (unexpected_matches (List.length entries) username)), None)
     end].
Proof. rewrite findUser_results_entries. reflexivity. Qed.

(* ------------------------------------------------------------------ *)
(** ** [authenticate]: the cache *)

(** C7: with [opts.cache] set, a call of [authenticate] whose username
    has a cache entry and whose password matches the stored hash calls
    back at once with the cached user; the state is unchanged and the
    callback is the only effect (no search, no connection, no bind). *)
Theorem authenticate_cache_hit (compareSync : string -> string -> bool)
    (id : nat) (username password : string) (st : State) (cached : Cache.entry) :
  JS.truthy (cache (opts st)) = true ->
  Cache.get username (userCache st) = Some cached ->
  compareSync password (Cache.password cached) = true ->
  authenticate compareSync id username password st
  = (st, [AuthCb id None (Some (Cache.user cached))]).
Proof.
  intros Hc Hg Hp. unfold authenticate. rewrite Hc, Hg, Hp. reflexivity.
Qed.

Lemma authenticate_cache_hit_witness :
  authenticate Scenario.compareSync 1 "jdoe" "secret" Scenario.cached
  = (Scenario.cached, [AuthCb 1 None (Some Scenario.jdoe)]).
Proof.
  apply (authenticate_cache_hit Scenario.compareSync 1 "jdoe" "secret" Scenario.cached
           {| Cache.password := "secret"; Cache.user := Scenario.jdoe |});
    reflexivity.
Defined.

(* ------------------------------------------------------------------ *)
(** ** The constructor *)



(* ------------------------------------------------------------------ *)
(** ** The connector: bind failures *)

Section BindFailure.
Import Connector ConnectorFacts.




End BindFailure.

(* ------------------------------------------------------------------ *)
(** ** The connector: attempts along a script *)

Module ScriptFacts.
Import Connector ConnectorFacts.

Ltac finish :=
  repeat split; eauto;
  repeat (first [apply Forall_nil | apply Forall_cons]; cbn; auto);
  repeat split; auto.

Lemma room_not_exhausted k n : room k (S n) -> exhausted k = false.
Proof.
  unfold room, exhausted. destruct (maxNumberOfRetry k); auto.
  intros H. apply Z.eqb_neq. lia.
Qed.

Lemma room_next k k' n : room k (S n) -> next k k' -> room k' n.
Proof.
  unfold room, next. intros H (Hb & Hm & _). rewrite Hm, Hb.
  destruct (maxNumberOfRetry k); auto. lia.
Qed.

Lemma room_start o dn pw r n :
  allows (failAfter (retries_or_Infinity r)) n = true ->
  room (fst (_createClient o dn pw r)) n.
Proof.
  unfold room, allows. cbn.
  destruct (failAfter (retries_or_Infinity r)); auto.
  intros H. apply orb_true_iff in H. destruct H as [H|H].
  - apply Z.ltb_lt in H. lia.
  - apply Z.leb_le in H. lia.
Qed.

Lemma fresh_start o dn pw r : fresh (fst (_createClient o dn pw r)).
Proof. unfold fresh. cbn. repeat split. eexists. split; reflexivity. Qed.

(** A retryable failure and the timer firing: one new attempt, [cb]
    not called. *)
Lemma failure_then_ready k o :
  fresh k -> retryable o = true -> room k 1 ->
  let r := run (map (pair false) (outcome_events o ++ [Ready])) k in
  fresh (fst r) /\ next k (fst r) /\
  attempts (snd r) = 1 /\ calls (snd r) = 0 /\
  Forall (acts_as (own k) (bindDn k) (passwd k)) (snd r).
Proof.
  intros (Hs & (c & Hc & Hco) & Ht & Hcb) Hr Hroom.
  apply room_not_exhausted in Hroom.
  destruct k as [ow d p s m b tm a n cb]. cbn in Hs, Hc, Ht, Hcb, Hco. subst.
  unfold exhausted in Hroom. cbn [maxNumberOfRetry backoffNumber] in Hroom.
  unfold fresh, next, retryable in *.
  destruct o as [e| |e|]; try discriminate.
  - cbn -[JS.is_err]. unfold handleFunctionCallback. cbn -[JS.is_err].
    change (JS.is_err (Some e)) with (JS.err_truthy e). rewrite Hr.
    unfold exhausted. cbn. rewrite Hroom. cbn.
    finish.
  - cbn. unfold exhausted. cbn. rewrite Hroom. cbn.
    finish.
  - apply andb_true_iff in Hr. destruct Hr as [He Hi].
    apply negb_true_iff in Hi.
    cbn -[JS.is_err is_InvalidCredentialsError].
    change (JS.is_err (Some e)) with (JS.err_truthy e). rewrite He, Hi.
    unfold exhausted. cbn. rewrite Hroom. cbn.
    finish.
Qed.

(** A conclusive outcome: [cb] is called once, no new attempt. *)
Lemma conclusive_outcome k o :
  fresh k -> conclusive o = true ->
  let r := run (map (pair false) (outcome_events o)) k in
  attempts (snd r) = 0 /\ calls (snd r) = 1 /\
  Forall (acts_as (own k) (bindDn k) (passwd k)) (snd r).
Proof.
  intros (Hs & (c & Hc & Hco) & Ht & Hcb) Hr.
  destruct k as [ow d p s m b tm a n cb]. cbn in Hs, Hc, Ht, Hcb, Hco. subst.
  destruct o as [e| |e|]; cbn in Hr; try discriminate.
  - destruct e as [nm msg|]; try discriminate.
    cbn. rewrite Hr. cbn. finish.
  - cbn. finish.
Qed.

Lemma run_app evs1 : forall evs2 k,
  run (evs1 ++ evs2) k
  = (fst (run evs2 (fst (run evs1 k))),
     snd (run evs1 k) ++ snd (run evs2 (fst (run evs1 k)))).
Proof.
  induction evs1 as [|[c ev] evs1 IH]; intros evs2 k; simpl.
  - destruct (run evs2 k); reflexivity.
  - destruct (step c ev k) as [k1 a1]. rewrite IH.
    destruct (run evs1 k1) as [k2 a2]. simpl.
    destruct (run evs2 k2) as [k3 a3]. simpl. rewrite app_assoc. reflexivity.
Qed.

Lemma attempts_app a b : attempts (a ++ b) = attempts a + attempts b.
Proof. unfold attempts. rewrite filter_app, length_app. reflexivity. Qed.

Lemma calls_app a b : calls (a ++ b) = calls a + calls b.
Proof. unfold calls. rewrite filter_app, length_app. reflexivity. Qed.

(** Along a script of retryable failures and a conclusive outcome, the
    connector opens one connection per failure after the one it has
    open, binds only with its own credentials, and calls [cb] once. *)
Lemma script_attempts failures : forall k final,
  fresh k -> Forall (fun o => retryable o = true) failures ->
  conclusive final = true -> room k (List.length failures) ->
  let r := run (map (pair false) (script failures final)) k in
  attempts (snd r) = List.length failures /\ calls (snd r) = 1 /\
  Forall (acts_as (own k) (bindDn k) (passwd k)) (snd r).
Proof.
  induction failures as [|o failures IH]; intros k final Hf Hall Hfin Hroom.
  - unfold script. cbn [flat_map app]. apply conclusive_outcome; assumption.
  - inversion Hall as [|? ? Ho Hrest]; subst.
    unfold script in *. cbn [flat_map List.length] in *.
    rewrite <- app_assoc, map_app, run_app. cbn [fst snd].
    assert (Hroom1 : room k 1).
    { unfold room in *. destruct (maxNumberOfRetry k); auto. lia. }
    destruct (failure_then_ready k o Hf Ho Hroom1) as (Hf' & Hn & Ha & Hc & Hb).
    pose proof (room_next _ _ _ Hroom Hn) as Hroom'.
    destruct (IH _ final Hf' Hrest Hfin Hroom') as (Ha' & Hc' & Hb').
    destruct Hn as (_ & _ & Hd & Hp & Ho'). rewrite Hd, Hp, Ho' in Hb'.
    rewrite attempts_app, calls_app, Ha, Hc, Ha', Hc'.
    repeat split. apply Forall_app. split; assumption.
Qed.

End ScriptFacts.

(* ------------------------------------------------------------------ *)
(** ** [authenticate]: the password check runs the connector *)

Lemma nth_error_upd {A : Type} (l : list A) : forall i x y,
  nth_error l i = Some x -> nth_error (upd i y l) i = Some y.
Proof.
  induction l as [|a l IH]; intros [|i] x y H; simpl in *; try discriminate; eauto.
Qed.

Lemma effects_of_app a b : effects_of (a ++ b) = effects_of a ++ effects_of b.
Proof.
  induction a as [|[e|c] a IH]; simpl; auto. rewrite IH. reflexivity.
Qed.

Lemma creates_app a b : creates (a ++ b) = creates a + creates b.
Proof. unfold creates. rewrite filter_app, length_app. reflexivity. Qed.

Lemma creates_effects_of acts : creates (effects_of acts) = Connector.attempts acts.
Proof.
  unfold creates, Connector.attempts.
  induction acts as [|[e|c] acts IH]; simpl; auto.
  destruct e; simpl; auto.
Qed.

Lemma creates_quiet es : Forall quiet es -> creates es = 0.
Proof.
  unfold creates. induction 1 as [|e es He _ IH]; simpl; auto.
  destruct e; simpl in *; auto; contradiction.
Qed.

Lemma attempts_of_made_as o d p es :
  Forall (made_as o d p) es -> attempts_of o es = creates es.
Proof.
  unfold attempts_of, creates. induction 1 as [|e es He _ IH]; simpl; auto.
  destruct e; simpl in *; auto.
  rewrite He. destruct o; simpl; rewrite Nat.eqb_refl; simpl; auto.
Qed.

Lemma made_as_effects_of o d p acts :
  Forall (acts_as o d p) acts -> Forall (made_as o d p) (effects_of acts).
Proof.
  induction 1 as [|[e|c] acts Ha _ IH]; simpl; auto.
Qed.

Lemma quiet_made_as o d p e : quiet e -> made_as o d p e.
Proof. destruct e; simpl; tauto. Qed.

Section FlowFacts.
Variable compareSync : string -> string -> bool.

Lemma verified_spec f args st k c :
  flow_has f k c st ->
  flow_has f k c (fst (verified f args st)) /\ Forall quiet (snd (verified f args st)).
Proof.
  intros (Hc & fl & Hfl & Hk). unfold verified. rewrite Hfl.
  destruct (JS.is_err (fst args)); [|destruct (snd args)]; cbn [fst snd];
    (split; [split; [exact Hc|]|repeat constructor]);
    eexists; (split; [apply (nth_error_upd _ _ _ _ Hfl)|exact Hk]).
Qed.

Lemma perform_verified f acts : forall st k c,
  flow_has f k c st ->
  let r := perform (verified f) acts st in
  flow_has f k c (fst r) /\
  (forall P : effect -> Prop,
      (forall e, quiet e -> P e) -> Forall P (effects_of acts) -> Forall P (snd r)) /\
  creates (snd r) = creates (effects_of acts).
Proof.
  induction acts as [|[e|a] acts IH]; intros st k c H; cbn [perform effects_of].
  - cbn. split; [exact H|]. split; auto.
  - specialize (IH st k c H). cbv zeta in IH.
    destruct (perform (verified f) acts st) as [st1 es]. cbn [fst snd] in *.
    destruct IH as (H1 & H2 & H3). repeat split; try apply H1.
    + intros P HP HF. inversion HF; subst. constructor; auto.
    + change (e :: es) with ([e] ++ es).
      change (e :: effects_of acts) with ([e] ++ effects_of acts).
      rewrite !creates_app, H3. reflexivity.
  - destruct (verified_spec f a st k c H) as (H1 & Hq).
    destruct (verified f a st) as [st1 e1]. cbn [fst snd] in *.
    specialize (IH st1 k c H1). cbv zeta in IH.
    destruct (perform (verified f) acts st1) as [st2 e2]. cbn [fst snd] in *.
    destruct IH as (H2 & H3 & H4). repeat split; try apply H2.
    + intros P HP HF. apply Forall_app. split; auto.
      eapply Forall_impl; [|exact Hq]. auto.
    + rewrite creates_app, (creates_quiet _ Hq), H4. reflexivity.
Qed.

(** The events of the connector of a flow act on the service as they
    act on the connector; the callback adds neither a connection nor a
    bind. *)
Lemma run_flow f evs : forall st k c,
  flow_has f k c st ->
  let r := run compareSync (map (ConnectorEvent (User f)) evs) st in
  let rk := Connector.run (map (pair c) evs) k in
  flow_has f (fst rk) c (fst r) /\
  (forall P : effect -> Prop,
      (forall e, quiet e -> P e) ->
      Forall P (effects_of (snd rk)) -> Forall P (snd r)) /\
  creates (snd r) = creates (effects_of (snd rk)).
Proof.
  induction evs as [|ev evs IH]; intros st k c H; cbn [map run Connector.run].
  - cbn. split; [exact H|]. split; auto.
  - destruct H as (Hc & fl & Hfl & Hk).
    cbn [step]. rewrite Hfl, Hc, Hk.
    destruct (Connector.step c ev k) as [k1 a1].
    assert (H0 : flow_has f k1 c (set_flows (upd f (set_f_conn k1 fl) (flows st)) st)).
    { split; [exact Hc|]. eexists.
      split; [apply (nth_error_upd _ _ _ _ Hfl)|reflexivity]. }
    destruct (perform_verified f a1 _ k1 c H0) as (H1 & H2 & H3).
    destruct (perform (verified f) a1 _) as [st1 e1]. cbn [fst snd] in *.
    specialize (IH st1 k1 c H1). cbv zeta in IH.
    destruct (run compareSync (map (ConnectorEvent (User f)) evs) st1) as [st2 e2].
    destruct (Connector.run (map (pair c) evs) k1) as [k2 a2].
    cbn [fst snd] in *. destruct IH as (H4 & H5 & H6).
    repeat split; try apply H4.
    + intros P HP HF. rewrite effects_of_app in HF. apply Forall_app in HF.
      destruct HF as [HF1 HF2]. apply Forall_app. split; auto.
    + rewrite effects_of_app, !creates_app, H3, H6. reflexivity.
Qed.

End FlowFacts.

Lemma nth_error_last {A : Type} (l : list A) (x : A) :
  nth_error (l ++ [x]) (List.length l) = Some x.
Proof. rewrite nth_error_app2, Nat.sub_diag; auto. Qed.

(** C1, as the code has it: when [authenticate] reaches the password
    check in a service that is not closed, it starts the connector with
    the resolved user's DN, the supplied password and the retry options
    of the service.  One connection is opened at once, and one more
    after every retryable failure: with [failures] such failures before
    a conclusive outcome (a successful bind, or invalid credentials),
    and a retry limit that allows them (none is set by default), the
    connections opened for the check number [1 + length failures]; all
    of them, and every bind, are made by that connector as the user. *)
Theorem authenticate_attempts_follow_retry_policy
    (compareSync : string -> string -> bool) (st : State)
    (id : nat) (username password : string) (u : UserRecord)
    (failures : list Connector.outcome) (final : Connector.outcome) :
  closed st = false ->
  Forall (fun o => Connector.retryable o = true) failures ->
  Connector.conclusive final = true ->
  Connector.allows
    (Connector.failAfter (Connector.retries_or_Infinity (retry (opts st))))
    (List.length failures) = true ->
  let f := List.length (flows st) in
  let start := user_found id username password (None, Some u) st in
  let tr :=
    snd start
    ++ snd (run compareSync
              (map (ConnectorEvent (User f)) (Connector.script failures final))
              (fst start)) in
  attempts_of (User f) tr = S (List.length failures) /\
  Forall (made_as (User f) (JS.Str (dn u)) (JS.Str password)) tr.
Proof.
  intros Hc Hall Hfin Hroom f start tr.
  set (r := retry (opts st)) in *.
  set (k0 := fst (Connector._createClient (User f) (JS.Str (dn u)) (JS.Str password) r)).
  assert (Hstart : start
                   = (set_flows (flows st ++ [Build_flow id username password u k0 Verifying]) st,
                      [CreateClient (Client (User f) 0)])) by reflexivity.
  assert (H0 : flow_has f k0 false (fst start)).
  { rewrite Hstart. split; [exact Hc|]. eexists. split; [apply nth_error_last|reflexivity]. }
  destruct (ScriptFacts.script_attempts failures k0 final
              (ScriptFacts.fresh_start _ _ _ _) Hall Hfin
              (ScriptFacts.room_start _ _ _ _ _ Hroom)) as (Ha & _ & Hb).
  destruct (run_flow compareSync f (Connector.script failures final) _ k0 false H0)
    as (_ & HP & Hcr).
  assert (Hmade : Forall (made_as (User f) (JS.Str (dn u)) (JS.Str password)) tr).
  { subst tr. apply Forall_app. split.
    - rewrite Hstart. repeat constructor.
    - apply HP; [apply quiet_made_as|]. apply made_as_effects_of. exact Hb. }
  split; [|exact Hmade].
  rewrite (attempts_of_made_as _ _ _ _ Hmade). subst tr.
  rewrite creates_app, Hcr, creates_effects_of, Ha, Hstart. reflexivity.
Qed.

(** C1 as stated fails: with the default retry options, a refused
    connection during the password check is followed, once the back-off
    timer fires, by a second connection, on which the bind is made. *)
Lemma authenticate_second_attempt_after_failed_connect :
  let evs :=
    Scenario.admin_connected
    ++ Scenario.jdoe_resolved 0 "jdoe" "secret"
    ++ map (ConnectorEvent (User 0))
         (Connector.script [Connector.ConnectFails Scenario.ECONNREFUSED]
            Connector.BindSucceeds) in
  let tr := trace Scenario.compareSync Scenario.config evs in
  attempts_of (User 0) tr = 2 /\
  attempts_of (User 0) tr <> 1 /\
  In (Bind (Client (User 0) 1) (JS.Str "uid=jdoe,ou=users") (JS.Str "secret")) tr.
Proof.
  cbv zeta. split; [vm_compute; reflexivity|].
  split; [vm_compute; discriminate|].
  vm_compute. tauto.
Qed.

Lemma authenticate_attempts_follow_retry_policy_witness :
  let st := Scenario.connected in
  let failures := [Connector.ConnectFails Scenario.ECONNREFUSED] in
  let f := List.length (flows st) in
  let start := user_found 0 "jdoe" "secret" (None, Some Scenario.jdoe) st in
  let tr :=
    snd start
    ++ snd (run Scenario.compareSync
              (map (ConnectorEvent (User f))
                 (Connector.script failures Connector.BindSucceeds))
              (fst start)) in
  attempts_of (User f) tr = S (List.length failures) /\
  Forall (made_as (User f) (JS.Str (dn Scenario.jdoe)) (JS.Str "secret")) tr.
Proof.
  apply (authenticate_attempts_follow_retry_policy Scenario.compareSync
           Scenario.connected 0 "jdoe" "secret" Scenario.jdoe
           [Connector.ConnectFails Scenario.ECONNREFUSED] Connector.BindSucceeds).
  - reflexivity.
  - repeat constructor.
  - reflexivity.
  - reflexivity.
Defined.

(* ------------------------------------------------------------------ *)
(** ** [authenticate]: completion *)

(** C3 fails on the code: [jdoe] is resolved and the password check has
    opened its connection when the application calls [close]; the
    connection is then established.  The connector sees [self.closed],
    ends the socket and completes its call with neither error nor
    client; the callback [authenticate] gave it takes the no-error
    branch and reads [client.unbind] of [undefined].  The exception is
    uncaught, the caller's callback has not run, and nothing is left
    under way that could run it. *)
Theorem authenticate_no_callback_when_closed_during_check :
  let evs :=
    Scenario.admin_connected
    ++ Scenario.jdoe_resolved 0 "jdoe" "secret"
    ++ [Close 1; ConnectorEvent (User 0) Connector.Connect; CloseUnbound 0 None] in
  let tr := trace Scenario.compareSync Scenario.config evs in
  auth_callbacks 0 tr = 0 /\
  In (Uncaught (TypeError "cannot read property unbind of undefined")) tr /\
  exists st fl,
    after Scenario.compareSync Scenario.config evs = Some st /\
    flows st = [fl] /\ f_stage fl = Finished /\
    Connector.state (f_conn fl) = Connector.Completed /\
    Connector.idle (f_conn fl).
Proof.
  cbv zeta. split; [vm_compute; reflexivity|]. split; [vm_compute; tauto|].
  eexists. eexists. split; [vm_compute; reflexivity|].
  split; [vm_compute; reflexivity|].
  split; [vm_compute; reflexivity|].
  split; [vm_compute; reflexivity|].
  split; vm_compute; reflexivity.
Qed.

(** The callback of [_findUser] is not guarded by [once]: a result that
    reports an error and then ends makes [authenticate] call back
    twice. *)
Lemma authenticate_calls_back_twice_on_error_then_end :
  let evs :=
    Scenario.admin_connected
    ++ [Authenticate 0 "jdoe" "secret"; SearchResult 0 None;
        ResultEvent 0 (searchError (JS.Error "connection lost"));
        ResultEvent 0 (searchEnd 0)] in
  auth_callbacks 0 (trace Scenario.compareSync Scenario.config evs) = 2.
Proof. vm_compute. reflexivity. Qed.

(* ------------------------------------------------------------------ *)
(** ** [close] before the admin session is connected *)

Section ClosedConnector.
Import Connector ConnectorFacts.




End ClosedConnector.

Section CloseFacts.
Local Abbreviation sstep := step (only parsing).
Local Abbreviation srun := run (only parsing).
Import Connector ConnectorFacts.
Variable compareSync : string -> string -> bool.













End CloseFacts.



(* ------------------------------------------------------------------ *)
(** ** [close] in every state *)







(* ------------------------------------------------------------------ *)
(** ** The connector: more properties *)

Ltac splits := repeat match goal with |- _ /\ _ => split end.

Section ConnectorMore.
Import Connector ConnectorFacts ScriptFacts.


Lemma calls_of_app a b : calls_of (a ++ b) = calls_of a ++ calls_of b.
Proof. induction a as [|[e|x] a IH]; simpl; auto. rewrite IH. reflexivity. Qed.

Lemma clients_of_app a b : clients_of (a ++ b) = clients_of a ++ clients_of b.
Proof.
  induction a as [|[e|x] a IH]; simpl; auto.
  destruct e; simpl; auto. rewrite IH. reflexivity.
Qed.

(** One handler: [cb] runs when, and only when, the [once] wrapper goes
    from fresh to used. *)
Lemma step_calls closed ev k :
  let r := step closed ev k in
  b2n (cb_called k) + calls (snd r) = b2n (cb_called (fst r)).
Proof.
  cbv zeta. unfold step, handleFunctionCallback, call_cb, abort, reset,
    _createClientAttempt, prepend, calls.
  destruct k as [? ? ? s ? ? tm a ? cb].
  destruct ev, a, closed, s, cb, tm; cbn;
    repeat match goal with
      | |- context [if ?x then _ else _] => destruct x; cbn
      end; reflexivity.
Qed.

Lemma run_calls evs : forall k,
  b2n (cb_called k) + calls (snd (run evs k)) = b2n (cb_called (fst (run evs k))).
Proof.
  induction evs as [|[c ev] evs IH]; intros k; cbn [run].
  - cbn. lia.
  - pose proof (step_calls c ev k) as H1. cbv zeta in H1.
    destruct (step c ev k) as [k1 a1]. cbn [fst snd] in *.
    specialize (IH k1). destruct (run evs k1) as [k2 a2]. cbn [fst snd] in *.
    rewrite calls_app. lia.
Qed.

(** X1: whatever the directory and the timers do, and whenever the
    service is closed, the callback given to [_createClient] runs at
    most once. *)
Theorem createClient_calls_back_at_most_once
    (o : owner) (dn pw : JS.value) (r : option RetryOpts)
    (evs : list (bool * event)) :
  calls (snd (run evs (fst (_createClient o dn pw r)))) <= 1.
Proof.
  pose proof (run_calls evs (fst (_createClient o dn pw r))) as H.
  assert (Hb : forall b, b2n b <= 1) by (intros []; cbn; lia).
  pose proof (Hb (cb_called (fst (run evs (fst (_createClient o dn pw r)))))).
  lia.
Qed.

(** The failed attempts of a script, before the last one. *)
Lemma failures_run failures : forall k,
  fresh k -> Forall (fun o => retryable o = true) failures ->
  room k (List.length failures) ->
  let r := run (map (pair false) (failing failures)) k in
  fresh (fst r) /\
  backoffNumber (fst r) = backoffNumber k + List.length failures /\
  maxNumberOfRetry (fst r) = maxNumberOfRetry k /\
  bindDn (fst r) = bindDn k /\ passwd (fst r) = passwd k /\ own (fst r) = own k /\
  attempts (snd r) = List.length failures /\ calls (snd r) = 0.
Proof.
  induction failures as [|o failures IH]; intros k Hf Hall Hroom.
  - cbn. rewrite Nat.add_0_r. splits; auto.
  - inversion Hall as [|? ? Ho Hrest]; subst.
    unfold failing in *. cbn [flat_map List.length] in *.
    rewrite map_app, run_app. cbn [fst snd].
    assert (Hroom1 : room k 1).
    { unfold room in *. destruct (maxNumberOfRetry k); auto. lia. }
    destruct (failure_then_ready k o Hf Ho Hroom1) as (Hf' & Hn & Ha & Hc & _).
    pose proof (room_next _ _ _ Hroom Hn) as Hroom'.
    destruct (IH _ Hf' Hrest Hroom') as (H1 & H2 & H3 & H4 & H5 & H6 & H7 & H8).
    destruct Hn as (Hb & Hm & Hd & Hp & Ho').
    rewrite attempts_app, calls_app, Ha, Hc, H7, H8, H2, H3, H4, H5, H6, Hb, Hm, Hd, Hp, Ho'.
    splits; auto; lia.
Qed.




(** X3: without a positive [retries] (no [retry] option, no [retries],
    zero or a negative number) the connector never gives up: however
    many attempts fail retryably, each is followed after its back-off
    by a new one, and [cb] is not called. *)
Theorem retries_unbounded_by_default
    (o : owner) (dn pw : JS.value) (r : option RetryOpts)
    (failures : list outcome) :
  match r with
  | Some {| retries := Some z |} => (z <= 0)%Z
  | _ => True
  end ->
  Forall (fun x => retryable x = true) failures ->
  let res := run (map (pair false) (failing failures)) (fst (_createClient o dn pw r)) in
  attempts (snd res) = List.length failures /\
  calls (snd res) = 0 /\
  exists c, current (fst res) = Connecting c.
Proof.
  intros Hr Hall res.
  assert (Hal : allows (failAfter (retries_or_Infinity r)) (List.length failures) = true).
  { destruct r as [[[z|]]|]; cbn; auto.
    destruct (Z.eqb_spec z 0); cbn; auto.
    destruct (Z.ltb_spec 0 z); [lia|]. reflexivity. }
  destruct (failures_run failures _ (fresh_start o dn pw r) Hall
              (room_start _ _ _ _ _ Hal))
    as ((_ & (c & Hc & _) & _) & _ & _ & _ & _ & _ & Ha & Hc').
  splits; auto. exists c. exact Hc.
Qed.

Lemma retries_unbounded_by_default_witness :
  let failures := [ConnectFails Scenario.ECONNREFUSED; TimesOut;
                   BindFails Scenario.UnavailableError] in
  let res := run (map (pair false) (failing failures))
               (fst (_createClient (Admin 0) (JS.Str "cn=admin") (JS.Str "adminpw")
                       (Some {| retries := Some 0%Z |}))) in
  attempts (snd res) = List.length failures /\
  calls (snd res) = 0 /\
  exists c, current (fst res) = Connecting c.
Proof.
  apply (retries_unbounded_by_default (Admin 0) (JS.Str "cn=admin") (JS.Str "adminpw")
           (Some {| retries := Some 0%Z |})
           [ConnectFails Scenario.ECONNREFUSED; TimesOut;
            BindFails Scenario.UnavailableError]).
  - cbn. lia.
  - repeat constructor.
Defined.

Lemma bind_success_acts (k : t) (c : client) :
  wf k -> state k = Running -> current k = Binding c ->
  snd (step false (BindReply None) k) = [Do (SetKeepAlive c); Call (None, Some c)].
Proof.
  intros Hwf Hs Hc.
  destruct (wf_attempt k Hwf) as (Hcb & Ht & _); [congruence|].
  unfold step. rewrite Hc. cbn [JS.is_err prepend].
  unfold handleFunctionCallback. cbn [state set_current]. rewrite Hs.
  cbn [JS.is_err fst]. unfold call_cb. cbn [cb_called set_current set_state].
  rewrite Hcb. reflexivity.
Qed.




Lemma step_closed_no_client ev k a :
  In a (calls_of (snd (step true ev k))) -> snd a = None.
Proof.
  unfold step, handleFunctionCallback, call_cb, abort, reset,
    _createClientAttempt, prepend.
  destruct k as [? ? ? s ? ? tm cur ? cb].
  destruct ev, cur, s, cb, tm; cbn;
    repeat match goal with
      | |- context [if ?x then _ else _] => destruct x; cbn
      end; intuition (subst; auto).
Qed.

(** X5: once the service is closed, no handler of a connector hands a
    client to its callback, whatever the state of the connector: the
    [closed && client] branch of the admin callback cannot be taken by a
    call made after [close]. *)
Theorem closed_connector_hands_no_client (evs : list event) (k : t) :
  Forall (fun a : cbargs => snd a = None)
    (calls_of (snd (run (map (pair true) evs) k))).
Proof.
  apply Forall_forall. intros a.
  revert k. induction evs as [|ev evs IH]; intros k; cbn [map run].
  - cbn. tauto.
  - pose proof (step_closed_no_client ev k a) as H1.
    destruct (step true ev k) as [k1 a1]. cbn [snd] in H1.
    specialize (IH k1). destruct (run (map (pair true) evs) k1) as [k2 a2].
    cbn [snd] in *. rewrite calls_of_app. intros H.
    apply in_app_or in H. destruct H; auto.
Qed.




End ConnectorMore.

(* ------------------------------------------------------------------ *)
(** ** The admin session *)

Section AdminSession.
Local Abbreviation sstep := step (only parsing).
Local Abbreviation srun := run (only parsing).
Import Connector ConnectorFacts.
Variable compareSync : string -> string -> bool.

Lemma owner_eqb_Admin k g : own k = Admin g -> owner_eqb (own k) (Admin g) = true.
Proof. intros ->. apply owner_eqb_refl. Qed.

(** X7: when the admin bind succeeds in a service that is not closed,
    the client is stored as the admin client, [_adminConnecting] is
    cleared, [handleClose] listens once to its [error] and to its
    [close], its proxy events are forwarded, and [connect] is emitted,
    once. *)
Theorem admin_connect_succeeds (st : State) (g : nat) (c : client) :
  wf (adminRetry st) -> own (adminRetry st) = Admin g ->
  state (adminRetry st) = Running -> current (adminRetry st) = Binding c ->
  closed st = false ->
  let r := sstep compareSync (ConnectorEvent (Admin g) (BindReply None)) st in
  snd r = [SetKeepAlive c; Emit "connect" None] /\
  _adminClient (fst r) = Some c /\
  _adminConnecting (fst r) = false /\
  handleClose_listeners (fst r)
  = (c, "error") :: (c, "close") :: handleClose_listeners st /\
  proxy_listeners (fst r) = c :: proxy_listeners st /\
  idle (adminRetry (fst r)).
Proof.
  intros Hwf Hown Hs Hc Hcl r.
  pose proof (bind_success_acts _ c Hwf Hs Hc) as Ha.
  assert (Hi : idle (fst (step false (BindReply None) (adminRetry st)))).
  { apply (wf_idle _ (wf_step false (BindReply None) _ Hwf)).
    pose proof (step_calls false (BindReply None) (adminRetry st)) as Hn.
    cbv zeta in Hn. rewrite Ha in Hn.
    destruct (cb_called (fst (step false (BindReply None) (adminRetry st)))); auto.
    cbn in Hn. destruct (cb_called (adminRetry st)); cbn in Hn; lia. }
  subst r. cbn [sstep]. rewrite (owner_eqb_Admin _ _ Hown), Hcl.
  destruct (step false (BindReply None) (adminRetry st)) as [k1 a1].
  cbn [fst snd] in *. subst a1.
  cbn [perform]. unfold adminConnected. cbn. rewrite Hcl. cbn.
  splits; auto.
Qed.

End AdminSession.

Lemma admin_connect_succeeds_witness :
  let st := fst (run Scenario.compareSync
                   [ConnectorEvent (Admin 0) Connector.Connect] Scenario.started) in
  let c := Client (Admin 0) 0 in
  let r := step Scenario.compareSync
             (ConnectorEvent (Admin 0) (Connector.BindReply None)) st in
  snd r = [SetKeepAlive c; Emit "connect" None] /\
  _adminClient (fst r) = Some c /\
  _adminConnecting (fst r) = false /\
  handleClose_listeners (fst r)
  = (c, "error") :: (c, "close") :: handleClose_listeners st /\
  proxy_listeners (fst r) = c :: proxy_listeners st /\
  Connector.idle (adminRetry (fst r)).
Proof.
  intros st c.
  apply (admin_connect_succeeds Scenario.compareSync st 0 c); reflexivity.
Defined.

Section AdminLifecycle.
Local Abbreviation sstep := step (only parsing).
Local Abbreviation srun := run (only parsing).
Import Connector ConnectorFacts.
Variable compareSync : string -> string -> bool.



Lemma client_eqb_sym a b : client_eqb a b = client_eqb b a.
Proof.
  unfold client_eqb. rewrite (Nat.eqb_sym (cl_serial a)). f_equal.
  destruct (cl_owner a), (cl_owner b); cbn; auto using Nat.eqb_sym.
Qed.

Lemma not_among_the_others c l :
  existsb (client_eqb c) (filter (fun d => negb (client_eqb d c)) l) = false.
Proof.
  induction l as [|d l IH]; cbn; auto.
  destruct (client_eqb d c) eqn:E; cbn; auto.
  rewrite client_eqb_sym, E. exact IH.
Qed.

(** X9: the [timeout] and [socketTimeout] events of the admin client
    are re-emitted by the service as long as it is not closed; [close]
    removes the forwarding, and the same events then emit nothing. *)
Theorem proxy_events_forwarded_until_close
    (st : State) (c : client) (name : string) (k : nat) :
  _adminClient st = Some c -> In name LDAP_PROXY_EVENTS ->
  existsb (client_eqb c) (proxy_listeners st) = true ->
  mem_listener c name (handleClose_listeners st) = false ->
  sstep compareSync (ClientEvent c name) st = (st, [Emit name None]) /\
  snd (sstep compareSync (ClientEvent c name) (fst (close k st))) = [].
Proof.
  intros Hc Hin Hp Hm. split.
  - cbn [sstep]. rewrite Hm, Hp.
    destruct Hin as [<-|[<-|[]]]; reflexivity.
  - unfold close. cbn [_adminClient set_closed]. rewrite Hc. cbn [fst sstep].
    cbn [handleClose_listeners set_close_unbinds set_proxy_listeners set_closed
           proxy_listeners].
    rewrite Hm, not_among_the_others, andb_false_r. reflexivity.
Qed.

End AdminLifecycle.


Lemma proxy_events_forwarded_until_close_witness :
  let st := Scenario.connected in
  let c := Client (Admin 0) 0 in
  step Scenario.compareSync (ClientEvent c "timeout") st = (st, [Emit "timeout" None]) /\
  snd (step Scenario.compareSync (ClientEvent c "timeout") (fst (close 1 st))) = [].
Proof.
  intros st c.
  apply (proxy_events_forwarded_until_close Scenario.compareSync st c "timeout" 1).
  - reflexivity.
  - left. reflexivity.
  - reflexivity.
  - reflexivity.
Defined.

(* ------------------------------------------------------------------ *)
(** ** The lifecycle invariant *)

Section Lifecycle.
Local Abbreviation sstep := step (only parsing).
Local Abbreviation srun := run (only parsing).
Import Connector ConnectorFacts.
Variable compareSync : string -> string -> bool.







Lemma calls_cons_Do e acts : calls (Do e :: acts) = calls acts.
Proof. reflexivity. Qed.

Lemma calls_cons_Call a acts : calls (Call a :: acts) = S (calls acts).
Proof. reflexivity. Qed.


Lemma perform_no_calls K acts : forall st,
  calls acts = 0 -> perform K acts st = (st, effects_of acts).
Proof.
  induction acts as [|[e|a] acts IH]; intros st H; cbn [perform effects_of].
  - reflexivity.
  - rewrite calls_cons_Do in H. rewrite (IH st H). reflexivity.
  - rewrite calls_cons_Call in H. discriminate.
Qed.

















End Lifecycle.

Section LifecycleTheorems.
Variable compareSync : string -> string -> bool.



End LifecycleTheorems.



Section AdminFatal.
Local Abbreviation sstep := step (only parsing).
Local Abbreviation srun := run (only parsing).
Local Abbreviation sevent := event (only parsing).
Import Connector ConnectorFacts.
Variable compareSync : string -> string -> bool.



End AdminFatal.


(* ------------------------------------------------------------------ *)
(** ** [authenticate] from call to callback *)

Lemma upd_last {A : Type} (l : list A) (x y : A) :
  upd (List.length l) y (l ++ [x]) = l ++ [y].
Proof. induction l as [|a l IH]; cbn; auto. rewrite IH. reflexivity. Qed.

Section Authenticate.
Variable compareSync : string -> string -> bool.

(** A call that is not served from the cache goes to [_findUser]. *)
Lemma authenticate_miss id username password st :
  cache_misses compareSync username password st ->
  authenticate compareSync id username password st
  = match _findUser username st with
    | CallbackNow err => user_found id username password (Some err, None) st
    | SearchSent c base filter =>
        (set_searches
           (searches st ++ [Build_search id username password AwaitResult]) st,
         [Search c base filter])
    | Throws e => (st, [Uncaught e])
    end.
Proof.
  intros [H|H]; unfold authenticate.
  - rewrite H. reflexivity.
  - destruct (JS.truthy (cache (opts st))); [|reflexivity].
    destruct (Cache.get username (userCache st)); [|reflexivity].
    rewrite H. reflexivity.
Qed.

Ltac walk :=
  repeat (cbn -[nth_error upd List.length JS.replace
                  no_such_user unexpected_matches non_zero_status];
          unfold verified;
          cbn -[nth_error upd List.length JS.replace
                  no_such_user unexpected_matches non_zero_status];
          rewrite ?nth_error_last, ?upd_last, ?app_nil_l).

(** X13: the password check that succeeds.  On a connected service
    that is not closed, with the cache off, a call that finds exactly
    one entry and whose bind as that entry succeeds sends one search
    with the interpolated filter, opens one connection, binds on it
    with the entry's DN and the supplied password, unbinds it, and
    calls back once, without error, with the entry's record; an error
    of the unbind changes nothing. *)
Theorem authenticate_verifies_password
    (st : State) (id : nat) (username password template : string)
    (c : client) (u : UserRecord) (unbindErr : option JS.error) :
  _adminClient st = Some c -> closed st = false ->
  searchFilter (opts st) = JS.Str template ->
  username <> EmptyString ->
  JS.truthy (cache (opts st)) = false ->
  let s := List.length (searches st) in
  let f := List.length (flows st) in
  let cu := Client (User f) 0 in
  snd (run compareSync
         (Authenticate id username password
          :: search_delivers s [u]
          ++ [ResultEvent s (searchEnd 0);
              ConnectorEvent (User f) Connector.Connect;
              ConnectorEvent (User f) (Connector.BindReply None);
              UserUnbound f unbindErr]) st)
  = [Search c (searchBase (opts st)) (JS.replace template "{{username}}" username);
     CreateClient cu;
     Bind cu (JS.Str (dn u)) (JS.Str password);
     SetKeepAlive cu;
     Unbind cu;
     AuthCb id None (Some u)].
Proof.
  intros Hc Hcl Hf Hu Hcache s f cu. subst s f cu.
  unfold search_delivers. cbn [map app run step].
  rewrite (authenticate_miss id username password st (or_introl Hcache)).
  unfold _findUser. apply String.eqb_neq in Hu. rewrite Hu, Hc, Hf.
  destruct st as [o cl ac acg kr g hl pl cu uc ss fs].
  cbn in Hc, Hcl, Hf, Hcache. subst.
  walk. rewrite Hcache. walk. reflexivity.
Qed.


(** X15: the wrong password.  When the bind as the entry found is
    answered with invalid credentials, [authenticate] calls back once
    with that error and no record, the socket is ended, no retry is
    made, and the cache is left as it was. *)
Theorem authenticate_rejects_wrong_password
    (st : State) (id : nat) (username password template : string)
    (c : client) (u : UserRecord) (err : option JS.error) :
  _adminClient st = Some c -> closed st = false ->
  searchFilter (opts st) = JS.Str template ->
  username <> EmptyString ->
  cache_misses compareSync username password st ->
  Connector.is_InvalidCredentialsError err = true ->
  let s := List.length (searches st) in
  let f := List.length (flows st) in
  let cu := Client (User f) 0 in
  let r := run compareSync
             (Authenticate id username password
              :: search_delivers s [u]
              ++ [ResultEvent s (searchEnd 0);
                  ConnectorEvent (User f) Connector.Connect;
                  ConnectorEvent (User f) (Connector.BindReply err)]) st in
  snd r
  = [Search c (searchBase (opts st)) (JS.replace template "{{username}}" username);
     CreateClient cu;
     Bind cu (JS.Str (dn u)) (JS.Str password);
     AuthCb id err None;
     SocketEnd cu] /\
  userCache (fst r) = userCache st /\
  exists fl, nth_error (flows (fst r)) f = Some fl /\
             f_stage fl = Finished /\ Connector.idle (f_conn fl).
Proof.
  intros Hc Hcl Hf Hu Hmiss Hinv s f cu. subst s f cu.
  destruct err as [[n m|]|]; try discriminate.
  unfold search_delivers. cbn [map app run step].
  rewrite (authenticate_miss id username password st Hmiss).
  unfold _findUser. apply String.eqb_neq in Hu. rewrite Hu, Hc, Hf.
  destruct st as [o cl ac acg kr g hl pl cu uc ss fs].
  cbn in Hc, Hcl, Hf. subst.
  cbn [Connector.is_InvalidCredentialsError] in Hinv.
  walk. rewrite Hinv. walk.
  split; [reflexivity|]. split; [reflexivity|].
  eexists. split; [reflexivity|]. split; [reflexivity|].
  split; reflexivity.
Qed.

Lemma service_run_app evs1 : forall evs2 st,
  run compareSync (evs1 ++ evs2) st
  = (fst (run compareSync evs2 (fst (run compareSync evs1 st))),
     snd (run compareSync evs1 st)
     ++ snd (run compareSync evs2 (fst (run compareSync evs1 st)))).
Proof.
  induction evs1 as [|ev evs1 IH]; intros evs2 st; cbn [app run].
  - cbn. destruct (run compareSync evs2 st); reflexivity.
  - destruct (step compareSync ev st) as [st1 e1]. rewrite IH.
    destruct (run compareSync evs1 st1) as [st2 e2]. cbn [fst snd].
    destruct (run compareSync evs2 st2) as [st3 e3]. cbn [fst snd].
    rewrite app_assoc. reflexivity.
Qed.

(** The entries of a search are collected in order, silently. *)
Lemma run_entries es : forall items o cl ac acg kr g hl pl cu uc ss fs id un pw,
  run compareSync (map (fun u => ResultEvent (List.length ss) (searchEntry u)) es)
    (mkState o cl ac acg kr g hl pl cu uc
       (ss ++ [Build_search id un pw (Collecting items)]) fs)
  = (mkState o cl ac acg kr g hl pl cu uc
       (ss ++ [Build_search id un pw (Collecting (items ++ es))]) fs, []).
Proof.
  induction es as [|e es IH]; intros; cbn [map run].
  - rewrite app_nil_r. reflexivity.
  - cbn [step searches]. rewrite nth_error_last.
    cbn [s_stage findUser_on s_username set_s_stage s_call s_password set_searches
           opts closed _adminClient _adminConnecting adminRetry generation
           handleClose_listeners proxy_listeners close_unbinds userCache searches flows].
    rewrite upd_last. unfold set_searches, set_s_stage.
    cbn [s_stage s_username s_call s_password
           opts closed _adminClient _adminConnecting adminRetry generation
           handleClose_listeners proxy_listeners close_unbinds userCache searches flows].
    rewrite IH, <- app_assoc. reflexivity.
Qed.

(** X16: a search that ends without exactly one entry, or with a
    non-zero status, fails the call without a password check:
    [authenticate] calls back once with an error (the status if it is
    not 0, else "no such user" for no entry and the unexpected number
    of matches for several), and opens no connection. *)
Theorem authenticate_fails_without_single_match
    (st : State) (id : nat) (username password template : string)
    (c : client) (entries : list UserRecord) (status : Z) :
  _adminClient st = Some c ->
  searchFilter (opts st) = JS.Str template ->
  username <> EmptyString ->
  cache_misses compareSync username password st ->
  status <> 0%Z \/ List.length entries <> 1 ->
  let s := List.length (searches st) in
  let r := run compareSync
             (Authenticate id username password
              :: search_delivers s entries
              ++ [ResultEvent s (searchEnd status)]) st in
  snd r
  = [Search c (searchBase (opts st)) (JS.replace template "{{username}}" username);
     AuthCb id
       (Some (JS.ErrStr
                (if (status =? 0)%Z then
                   match entries with
                   | [] => no_such_user username
                   | _ => unexpected_matches (List.length entries) username
                   end
                 else non_zero_status status)))
       None] /\
  flows (fst r) = flows st.
Proof.
  intros Hc Hf Hu Hmiss Hbad s r. subst s r.
  unfold search_delivers.
  change (Authenticate id username password
          :: (SearchResult (List.length (searches st)) None
              :: map (fun u => ResultEvent (List.length (searches st)) (searchEntry u)) entries)
          ++ [ResultEvent (List.length (searches st)) (searchEnd status)])
    with ([Authenticate id username password;
           SearchResult (List.length (searches st)) None]
          ++ map (fun u => ResultEvent (List.length (searches st)) (searchEntry u)) entries
          ++ [ResultEvent (List.length (searches st)) (searchEnd status)]).
  rewrite service_run_app. cbn [run step].
  rewrite (authenticate_miss id username password st Hmiss).
  unfold _findUser. apply String.eqb_neq in Hu. rewrite Hu, Hc, Hf.
  destruct st as [o cl ac acg kr g hl pl cu uc ss fs].
  cbn in Hc, Hf. subst.
  cbn [searches set_searches nth_error]. walk.
  unfold set_s_stage, set_searches.
  cbn [s_call s_username s_password
         opts closed _adminClient _adminConnecting adminRetry generation
         handleClose_listeners proxy_listeners close_unbinds userCache searches flows].
  rewrite service_run_app, run_entries. cbn [fst snd app run step searches].
  rewrite nth_error_last.
  cbn [s_stage findUser_on s_username s_call s_password app].
  destruct (Z.eqb_spec status 0) as [->|Hs]; cbn [negb].
  - destruct Hbad as [Hbad|Hbad]; [contradiction|].
    destruct entries as [|u1 [|u2 entries]]; cbn [List.length] in Hbad; try lia;
      cbn; split; reflexivity.
  - cbn. split; reflexivity.
Qed.

(** X17: an error of the search is the outcome of the call.  Whether
    the search is refused at once or its result reports an error after
    some entries, [authenticate] calls back once with that very error
    and starts no password check. *)
Theorem authenticate_propagates_search_error
    (st : State) (id : nat) (username password template : string)
    (c : client) (entries : list UserRecord) (e : JS.error) :
  _adminClient st = Some c ->
  searchFilter (opts st) = JS.Str template ->
  username <> EmptyString ->
  cache_misses compareSync username password st ->
  JS.err_truthy e = true ->
  let s := List.length (searches st) in
  let sent := Search c (searchBase (opts st))
                (JS.replace template "{{username}}" username) in
  let refused := run compareSync
                   [Authenticate id username password; SearchResult s (Some e)] st in
  let failed := run compareSync
                  (Authenticate id username password
                   :: search_delivers s entries
                   ++ [ResultEvent s (searchError e)]) st in
  (snd refused = [sent; AuthCb id (Some e) None] /\ flows (fst refused) = flows st) /\
  (snd failed = [sent; AuthCb id (Some e) None] /\ flows (fst failed) = flows st).
Proof.
  intros Hc Hf Hu Hmiss He s sent refused failed. subst s sent refused failed.
  apply String.eqb_neq in Hu. split.
  - cbn [run step].
    rewrite (authenticate_miss id username password st Hmiss).
    unfold _findUser. rewrite Hu, Hc, Hf.
    destruct st as [o cl ac acg kr g hl pl cu uc ss fs].
    cbn in Hc, Hf. subst.
    cbn [searches set_searches nth_error]. walk.
    unfold user_found. cbn [fst snd JS.is_err]. rewrite He. split; reflexivity.
  - unfold search_delivers.
    change (Authenticate id username password
            :: (SearchResult (List.length (searches st)) None
                :: map (fun u => ResultEvent (List.length (searches st)) (searchEntry u))
                     entries)
            ++ [ResultEvent (List.length (searches st)) (searchError e)])
      with ([Authenticate id username password;
             SearchResult (List.length (searches st)) None]
            ++ map (fun u => ResultEvent (List.length (searches st)) (searchEntry u)) entries
            ++ [ResultEvent (List.length (searches st)) (searchError e)]).
    rewrite service_run_app. cbn [run step].
    rewrite (authenticate_miss id username password st Hmiss).
    unfold _findUser. rewrite Hu, Hc, Hf.
    destruct st as [o cl ac acg kr g hl pl cu uc ss fs].
    cbn in Hc, Hf. subst.
    cbn [searches set_searches nth_error]. walk.
    unfold set_s_stage, set_searches.
    cbn [s_call s_username s_password
           opts closed _adminClient _adminConnecting adminRetry generation
           handleClose_listeners proxy_listeners close_unbinds userCache searches flows].
    rewrite service_run_app, run_entries. cbn [fst snd app run step searches].
    rewrite nth_error_last.
    cbn [s_stage findUser_on s_username s_call s_password app].
    unfold user_found. cbn [fst snd JS.is_err]. rewrite He. split; reflexivity.
Qed.

(** X18: a call that cannot search calls back at once.  With an empty
    username, or while no admin client is stored, [authenticate] (not
    served from the cache) calls back with the error of [_findUser]
    in the same turn, sends nothing, and leaves the service as it
    was. *)
Theorem authenticate_fails_at_once (st : State) (id : nat) (username password : string) :
  cache_misses compareSync username password st ->
  username = EmptyString \/ _adminClient st = None ->
  authenticate compareSync id username password st
  = (st, [AuthCb id
            (Some (JS.Error (if (username =? EmptyString)%string
                             then "empty username"
                             else "LDAP connection is not yet bound")))
            None]).
Proof.
  intros Hmiss H. rewrite (authenticate_miss id username password st Hmiss).
  unfold _findUser.
  destruct (String.eqb_spec username EmptyString) as [E|E]; [reflexivity|].
  destruct H as [H|H]; [contradiction|]. rewrite H. reflexivity.
Qed.

(** X19: the constructor's check of [searchFilter] is truthiness, so a
    number other than 0 passes it; [_findUser] then calls [replace] on
    it: every call of [authenticate] that reaches the search throws a
    type error, and the caller's callback is not run. *)
Theorem numeric_filter_passes_and_throws
    (st : State) (id : nat) (username password : string) (c : client) (z : Z) :
  searchFilter (opts st) = JS.Num z -> z <> 0%Z ->
  _adminClient st = Some c -> username <> EmptyString ->
  cache_misses compareSync username password st ->
  JS.truthy (searchFilter (opts st)) = true /\
  authenticate compareSync id username password st
  = (st, [Uncaught (TypeError "opts.searchFilter.replace is not a function")]).
Proof.
  intros Hf Hz Hc Hu Hmiss. split.
  - rewrite Hf. cbn. apply negb_true_iff. apply Z.eqb_neq. exact Hz.
  - rewrite (authenticate_miss id username password st Hmiss).
    unfold _findUser. apply String.eqb_neq in Hu. rewrite Hu, Hc, Hf. reflexivity.
Qed.

End Authenticate.

(* ------------------------------------------------------------------ *)
(** ** The filter, the closed connector, the first attempt *)

Lemma strip_prefix_complete p : forall r, JS.strip_prefix p (p ++ r)%string = Some r.
Proof.
  induction p as [|a p IH]; intros r; cbn [JS.strip_prefix String.append].
  - reflexivity.
  - rewrite Ascii.eqb_refl. apply IH.
Qed.

Lemma split_first_leftmost p : forall s before rest b r,
  JS.split_first p s = Some (before, rest) ->
  s = (b ++ p ++ r)%string -> String.length before <= String.length b.
Proof.
  induction s as [|ch s IH]; intros before rest b r H E.
  - cbn [JS.split_first] in H.
    destruct (JS.strip_prefix p EmptyString); [|discriminate].
    injection H as <- _. cbn. lia.
  - cbn [JS.split_first] in H.
    destruct (JS.strip_prefix p (String ch s)) eqn:Ep.
    + injection H as <- _. cbn. lia.
    + destruct (JS.split_first p s) as [[b0 r0]|] eqn:Es; [|discriminate].
      injection H as <- <-.
      destruct b as [|ch' b'].
      * cbn [String.append] in E. rewrite E, strip_prefix_complete in Ep. discriminate.
      * cbn [String.append] in E. injection E as _ E.
        cbn [String.length]. apply le_n_S. exact (IH _ _ _ _ eq_refl E).
Qed.

Lemma split_first_none p : forall s b r,
  JS.split_first p s = None -> s <> (b ++ p ++ r)%string.
Proof.
  induction s as [|ch s IH]; intros b r H E.
  - cbn [JS.split_first] in H.
    destruct (JS.strip_prefix p EmptyString) eqn:Ep; [discriminate|].
    destruct b; [|discriminate]. cbn [String.append] in E.
    rewrite E, strip_prefix_complete in Ep. discriminate.
  - cbn [JS.split_first] in H.
    destruct (JS.strip_prefix p (String ch s)) eqn:Ep; [discriminate|].
    destruct (JS.split_first p s) as [[b0 r0]|] eqn:Es; [discriminate|].
    destruct b as [|ch' b'].
    + cbn [String.append] in E. rewrite E, strip_prefix_complete in Ep. discriminate.
    + cbn [String.append] in E. injection E as _ E. exact (IH _ _ eq_refl E).
Qed.

(** X20: for a username without [$], the filter [_findUser] sends is the
    template with its leftmost [{{username}}] replaced by the username
    as it is, every later occurrence being kept; a template without the
    token is sent unchanged, whatever the username. *)
Theorem findUser_filter_replaces_leftmost
    (st : State) (username template : string) (c : client) :
  _adminClient st = Some c -> searchFilter (opts st) = JS.Str template ->
  username <> EmptyString -> JS.contains_char "$" username = false ->
  exists filter,
    _findUser username st = SearchSent c (searchBase (opts st)) filter /\
    match JS.split_first "{{username}}" template with
    | Some (before, rest) =>
        template = (before ++ "{{username}}" ++ rest)%string /\
        filter = (before ++ username ++ rest)%string /\
        forall b r, template = (b ++ "{{username}}" ++ r)%string ->
                    String.length before <= String.length b
    | None =>
        filter = template /\
        forall b r, template <> (b ++ "{{username}}" ++ r)%string
    end.
Proof.
  intros Hc Hf Hu Hd. unfold _findUser.
  apply String.eqb_neq in Hu. rewrite Hu, Hc, Hf.
  eexists. split; [reflexivity|].
  rewrite (replace_plain_username _ _ _ Hd). unfold JS.insert_at_first.
  destruct (JS.split_first "{{username}}" template) as [[before rest]|] eqn:E.
  - split; [apply split_first_sound; exact E|]. split; [reflexivity|].
    intros b r Hb. exact (split_first_leftmost _ _ _ _ _ _ E Hb).
  - split; [reflexivity|]. intros b r. apply split_first_none. exact E.
Qed.

Lemma findUser_filter_replaces_leftmost_witness :
  exists filter,
    _findUser "jdoe" Scenario.connected
    = SearchSent (Client (Admin 0) 0) (searchBase (opts Scenario.connected)) filter /\
    match JS.split_first "{{username}}" "(uid={{username}})" with
    | Some (before, rest) =>
        "(uid={{username}})" = (before ++ "{{username}}" ++ rest)%string /\
        filter = (before ++ "jdoe" ++ rest)%string /\
        forall b r, "(uid={{username}})" = (b ++ "{{username}}" ++ r)%string ->
                    String.length before <= String.length b
    | None =>
        filter = "(uid={{username}})" /\
        forall b r, "(uid={{username}})" <> (b ++ "{{username}}" ++ r)%string
    end.
Proof.
  apply (findUser_filter_replaces_leftmost Scenario.connected "jdoe"
           "(uid={{username}})" (Client (Admin 0) 0)).
  - reflexivity.
  - reflexivity.
  - discriminate.
  - reflexivity.
Defined.

(** X21: once the service is closed, the attempt under way of any
    connector is torn down when its connection is established or its
    bind answered: the socket is ended, no bind is sent, and the reply
    to the bind is dropped, be it a success or an error; if the call was
    not aborted it completes with neither error nor client.  Without an
    attempt under way the events do nothing. *)
Theorem closed_attempt_is_torn_down (k : Connector.t) (reply : option JS.error) :
  let done :=
    snd (Connector.handleFunctionCallback (None, None)
           (Connector.set_current Connector.NoAttempt k)) in
  match Connector.current k with
  | Connector.Connecting c =>
      snd (Connector.step true Connector.Connect k) = Connector.Do (SocketEnd c) :: done
  | Connector.Binding c =>
      snd (Connector.step true (Connector.BindReply reply) k)
      = Connector.Do (SocketEnd c) :: done
  | Connector.NoAttempt =>
      snd (Connector.step true Connector.Connect k) = [] /\
      snd (Connector.step true (Connector.BindReply reply) k) = []
  end /\
  Forall (fun a => a = (None, None)) (calls_of done) /\
  effects_of done = [].
Proof.
  cbv zeta. splits.
  - unfold Connector.step. destruct (Connector.current k); auto.
  - unfold Connector.handleFunctionCallback, Connector.call_cb.
    destruct k as [? ? ? s ? ? tm a ? cb]. destruct s, cb; cbn; repeat constructor.
  - unfold Connector.handleFunctionCallback, Connector.call_cb.
    destruct k as [? ? ? s ? ? tm a ? cb]. destruct s, cb; cbn; reflexivity.
Qed.



(* ------------------------------------------------------------------ *)
(** ** Instances on the scenario *)

Lemma authenticate_verifies_password_witness :
  let st := Scenario.connected in
  let s := List.length (searches st) in
  let f := List.length (flows st) in
  let cu := Client (User f) 0 in
  snd (run Scenario.compareSync
         (Authenticate 0 "jdoe" "secret"
          :: search_delivers s [Scenario.jdoe]
          ++ [ResultEvent s (searchEnd 0);
              ConnectorEvent (User f) Connector.Connect;
              ConnectorEvent (User f) (Connector.BindReply None);
              UserUnbound f None]) st)
  = [Search (Client (Admin 0) 0) (searchBase (opts st))
       (JS.replace "(uid={{username}})" "{{username}}" "jdoe");
     CreateClient cu;
     Bind cu (JS.Str (dn Scenario.jdoe)) (JS.Str "secret");
     SetKeepAlive cu;
     Unbind cu;
     AuthCb 0 None (Some Scenario.jdoe)].
Proof.
  apply (authenticate_verifies_password Scenario.compareSync Scenario.connected 0
           "jdoe" "secret" "(uid={{username}})" (Client (Admin 0) 0) Scenario.jdoe None);
    try reflexivity.
  discriminate.
Defined.


Lemma authenticate_rejects_wrong_password_witness :
  let st := Scenario.connected in
  let err := Some Scenario.InvalidCredentialsError in
  let s := List.length (searches st) in
  let f := List.length (flows st) in
  let cu := Client (User f) 0 in
  let r := run Scenario.compareSync
             (Authenticate 0 "jdoe" "wrong"
              :: search_delivers s [Scenario.jdoe]
              ++ [ResultEvent s (searchEnd 0);
                  ConnectorEvent (User f) Connector.Connect;
                  ConnectorEvent (User f) (Connector.BindReply err)]) st in
  snd r
  = [Search (Client (Admin 0) 0) (searchBase (opts st))
       (JS.replace "(uid={{username}})" "{{username}}" "jdoe");
     CreateClient cu;
     Bind cu (JS.Str (dn Scenario.jdoe)) (JS.Str "wrong");
     AuthCb 0 err None;
     SocketEnd cu] /\
  userCache (fst r) = userCache st /\
  exists fl, nth_error (flows (fst r)) f = Some fl /\
             f_stage fl = Finished /\ Connector.idle (f_conn fl).
Proof.
  apply (authenticate_rejects_wrong_password Scenario.compareSync Scenario.connected 0
           "jdoe" "wrong" "(uid={{username}})" (Client (Admin 0) 0) Scenario.jdoe
           (Some Scenario.InvalidCredentialsError));
    try reflexivity.
  - discriminate.
  - left. reflexivity.
Defined.

Lemma authenticate_fails_without_single_match_witness :
  let st := Scenario.connected in
  let entries := [Scenario.jdoe; ScenarioMore.jsmith] in
  let s := List.length (searches st) in
  let r := run Scenario.compareSync
             (Authenticate 0 "j*" "secret"
              :: search_delivers s entries
              ++ [ResultEvent s (searchEnd 0)]) st in
  snd r
  = [Search (Client (Admin 0) 0) (searchBase (opts st))
       (JS.replace "(uid={{username}})" "{{username}}" "j*");
     AuthCb 0
       (Some (JS.ErrStr
                (if (0 =? 0)%Z then
                   match entries with
                   | [] => no_such_user "j*"
                   | _ => unexpected_matches (List.length entries) "j*"
                   end
                 else non_zero_status 0)))
       None] /\
  flows (fst r) = flows st.
Proof.
  apply (authenticate_fails_without_single_match Scenario.compareSync Scenario.connected 0
           "j*" "secret" "(uid={{username}})" (Client (Admin 0) 0)
           [Scenario.jdoe; ScenarioMore.jsmith] 0%Z);
    try reflexivity.
  - discriminate.
  - left. reflexivity.
  - right. cbn. lia.
Defined.

Lemma authenticate_propagates_search_error_witness :
  let st := Scenario.connected in
  let e := Scenario.UnavailableError in
  let entries := [Scenario.jdoe] in
  let s := List.length (searches st) in
  let sent := Search (Client (Admin 0) 0) (searchBase (opts st))
                (JS.replace "(uid={{username}})" "{{username}}" "jdoe") in
  let refused := run Scenario.compareSync
                   [Authenticate 0 "jdoe" "secret"; SearchResult s (Some e)] st in
  let failed := run Scenario.compareSync
                  (Authenticate 0 "jdoe" "secret"
                   :: search_delivers s entries
                   ++ [ResultEvent s (searchError e)]) st in
  (snd refused = [sent; AuthCb 0 (Some e) None] /\ flows (fst refused) = flows st) /\
  (snd failed = [sent; AuthCb 0 (Some e) None] /\ flows (fst failed) = flows st).
Proof.
  apply (authenticate_propagates_search_error Scenario.compareSync Scenario.connected 0
           "jdoe" "secret" "(uid={{username}})" (Client (Admin 0) 0)
           [Scenario.jdoe] Scenario.UnavailableError);
    try reflexivity.
  - discriminate.
  - left. reflexivity.
Defined.

Lemma authenticate_fails_at_once_witness :
  authenticate Scenario.compareSync 0 "jdoe" "secret" Scenario.started
  = (Scenario.started,
     [AuthCb 0
        (Some (JS.Error (if ("jdoe" =? EmptyString)%string
                         then "empty username"
                         else "LDAP connection is not yet bound")))
        None]).
Proof.
  apply (authenticate_fails_at_once Scenario.compareSync Scenario.started 0
           "jdoe" "secret").
  - left. reflexivity.
  - right. reflexivity.
Defined.

Lemma numeric_filter_passes_and_throws_witness :
  JS.truthy (searchFilter (opts ScenarioMore.connected_numeric)) = true /\
  authenticate Scenario.compareSync 0 "jdoe" "secret" ScenarioMore.connected_numeric
  = (ScenarioMore.connected_numeric,
     [Uncaught (TypeError "opts.searchFilter.replace is not a function")]).
Proof.
  apply (numeric_filter_passes_and_throws Scenario.compareSync
           ScenarioMore.connected_numeric 0 "jdoe" "secret" (Client (Admin 0) 0) 42%Z).
  - reflexivity.
  - discriminate.
  - reflexivity.
  - discriminate.
  - left. reflexivity.
Defined.
